(** * pimotorcontrol: a journaled, pulse-counting motor controller

    Shallow embedding of [pimotorcontrol.py] (class [pimc]) and a
    verification of its journaled motion-control state machine.

    Conventions of the embedding:
    - Python [str] values are modelled as ASCII [string]s; an attribute that
      may hold [None] is an [option].
    - Python [int]s are [Z].
    - The wall clock is counted in integer milliseconds elapsed since
      [start_time]; a [time.sleep(d)] advances it by [d] plus a non-negative
      lag chosen by the environment.
    - The journal, when it exists, is a regular file that decodes as text:
      [journal_file] holds the text [f.read()] returns, and [open()] and
      [read()] are taken to succeed on it.
    - The object's attributes, the journal file and the chronological list of
      calls the controller thread makes to the outside world (GPIO, executor,
      file system) live in one record, threaded through a small state and
      exception monad.
    - [print] and [logger.debug/info/error/critical] calls have no effect on
      any of this and are left out. *)

From Stdlib Require Import ZArith List String Ascii Bool Lia.
From Stdlib Require Import DecimalString DecimalPos DecimalZ.
Import ListNotations.

Open Scope string_scope.
Open Scope Z_scope.

(** ** Python string helpers *)

Module PyStr.

(** [str.isspace] restricted to ASCII: TAB, LF, VT, FF, CR, FS, GS, RS, US
    and the space. *)
Definition isspace (c : ascii) : bool :=
  let n := nat_of_ascii c in
  ((9 <=? n) && (n <=? 13) || (28 <=? n) && (n <=? 32))%nat.

Definition isdigit (c : ascii) : bool :=
  let n := nat_of_ascii c in ((48 <=? n) && (n <=? 57))%nat.

Fixpoint lstrip (s : string) : string :=
  match s with
  | EmptyString => EmptyString
  | String c r => if isspace c then lstrip r else s
  end.

Fixpoint rstrip (s : string) : string :=
  match s with
  | EmptyString => EmptyString
  | String c r =>
      match rstrip r with
      | EmptyString => if isspace c then EmptyString else String c EmptyString
      | r' => String c r'
      end
  end.

(** [s.strip()] *)
Definition strip (s : string) : string := rstrip (lstrip s).

(** [s.split()]: the maximal runs of non-whitespace characters. *)
Fixpoint split (s : string) : list string :=
  match s with
  | EmptyString => []
  | String c r =>
      if isspace c then split r
      else match r with
           | EmptyString => [String c EmptyString]
           | String c' _ =>
               if isspace c' then String c EmptyString :: split r
               else match split r with
                    | w :: ws => String c w :: ws
                    | [] => [String c EmptyString]
                    end
           end
  end.

(** Truthiness of a [str]. *)
Definition truthy (s : string) : bool :=
  match s with EmptyString => false | _ => true end.

(** [str(n)], as used by an f-string. *)
Definition str (n : Z) : string := NilZero.string_of_int (Z.to_int n).

(** The digits of an [int(...)] literal: decimal digits, where a single
    underscore may separate two digits.  Returns the digits without the
    underscores. *)
Fixpoint digits (after_digit : bool) (s : string) : option string :=
  match s with
  | EmptyString => if after_digit then Some EmptyString else None
  | String c r =>
      if Ascii.eqb c "_" then
        if after_digit then digits false r else None
      else if isdigit c then option_map (String c) (digits true r)
      else None
  end.

Definition unsigned (s : string) : option Z :=
  match digits false s with
  | Some d => option_map Z.of_uint (NilEmpty.uint_of_string d)
  | None => None
  end.

(** [int(s)]: [None] stands for [ValueError]. *)
Definition int (s : string) : option Z :=
  match strip s with
  | String "+" r => unsigned r
  | String "-" r => option_map Z.opp (unsigned r)
  | r => unsigned r
  end.

End PyStr.

(** ** The controller object and its surroundings *)

(** motor leads and pulse signal *)
Definition CH1 : Z := 26.
Definition CH2 : Z := 20.
Definition PULSE : Z := 5.

Inductive direction := OUT | IN.

(** What the controller thread does to the outside world, in order. *)
Inductive event :=
| GpioSetup (pin : Z) (dir : direction)   (* GPIO.setup(pin, dir) *)
| GpioOutput (pin value : Z)              (* GPIO.output(pin, value) *)
| Submit (label : string)                 (* journal_executor.submit(write_journal) *)
| WriteJournal (content : string).        (* write_journal() run by the caller itself *)

(** The attributes of a [pimc] object, followed by the two pieces of the
    outside world it acts on.  [journal_futures] keeps the label of every
    outstanding future, oldest first; the label is the status at submission
    (its timestamp suffix, only used in debug messages, is dropped). *)
Record pimc := mk_pimc {
  journal_filename : string;
  gpio_initialized : bool;
  journal_futures : list string;
  motor_busy : bool;
  faking_it : bool;
  open_pulses : Z;
  close_pulses : Z;
  maxtime : Z;
  status : option string;
  (* outside world *)
  journal_file : option string;   (* [None]: the file does not exist *)
  trace : list event
}.

Definition with_gpio_initialized (b : bool) (o : pimc) : pimc :=
  mk_pimc (journal_filename o) b (journal_futures o) (motor_busy o)
          (faking_it o) (open_pulses o) (close_pulses o) (maxtime o)
          (status o) (journal_file o) (trace o).
Definition with_journal_futures (fs : list string) (o : pimc) : pimc :=
  mk_pimc (journal_filename o) (gpio_initialized o) fs (motor_busy o)
          (faking_it o) (open_pulses o) (close_pulses o) (maxtime o)
          (status o) (journal_file o) (trace o).
Definition with_motor_busy (b : bool) (o : pimc) : pimc :=
  mk_pimc (journal_filename o) (gpio_initialized o) (journal_futures o) b
          (faking_it o) (open_pulses o) (close_pulses o) (maxtime o)
          (status o) (journal_file o) (trace o).
Definition with_status (s : option string) (o : pimc) : pimc :=
  mk_pimc (journal_filename o) (gpio_initialized o) (journal_futures o)
          (motor_busy o) (faking_it o) (open_pulses o) (close_pulses o)
          (maxtime o) s (journal_file o) (trace o).
Definition with_journal_file (f : option string) (o : pimc) : pimc :=
  mk_pimc (journal_filename o) (gpio_initialized o) (journal_futures o)
          (motor_busy o) (faking_it o) (open_pulses o) (close_pulses o)
          (maxtime o) (status o) f (trace o).
Definition with_trace (t : list event) (o : pimc) : pimc :=
  mk_pimc (journal_filename o) (gpio_initialized o) (journal_futures o)
          (motor_busy o) (faking_it o) (open_pulses o) (close_pulses o)
          (maxtime o) (status o) (journal_file o) t.

(** What the surroundings decide during a pulse wait, indexed by the loop
    iteration: the level of the feedback input when it is polled, by how many
    milliseconds the iteration overruns its sleep, and how many outstanding
    journal futures the zero-timeout sweep finds finished. *)
Record environment := {
  level : nat -> bool;
  lag : nat -> N;
  ready : nat -> nat
}.

(** ** State and exception monad *)

Inductive exn := AttributeError | IndexError | TypeError.

Inductive outcome (A : Type) :=
| Returns (a : A) (self : pimc)
| Raises (e : exn) (self : pimc)
| OutOfFuel.
Arguments Returns {A} a self.
Arguments Raises {A} e self.
Arguments OutOfFuel {A}.

Definition M (A : Type) : Type := pimc -> outcome A.

Definition ret {A} (a : A) : M A := fun self => Returns a self.
Definition raise {A} (e : exn) : M A := fun self => Raises e self.
Definition bind {A B} (m : M A) (k : A -> M B) : M B :=
  fun self =>
    match m self with
    | Returns a self' => k a self'
    | Raises e self' => Raises e self'
    | OutOfFuel => OutOfFuel
    end.
Definition modify (f : pimc -> pimc) : M unit := fun self => Returns tt (f self).
Definition emit (e : event) : M unit :=
  modify (fun self => with_trace (trace self ++ [e]) self).

Notation "x <- c ;; k" := (bind c (fun x => k))
  (at level 61, c at next level, right associativity).
Notation "c ;; k" := (bind c (fun _ => k))
  (at level 61, right associativity).

(** The final object of an outcome that has one. *)
Definition final {A} (r : outcome A) : option pimc :=
  match r with
  | Returns _ self | Raises _ self => Some self
  | OutOfFuel => None
  end.

(** ** Journal store *)

(** The body of [write_journal] as it acts on the file: [open(..., 'w')]
    truncates it, then [f.write(self.status)] stores the status (and raises
    [TypeError], leaving the file empty, when the status is [None]). *)
Definition store_journal (self : pimc) : pimc :=
  with_journal_file
    (Some match status self with Some s => s | None => EmptyString end) self.

(** [load_journal].  On an existing journal [open()] and [read()] are taken
    to succeed and to deliver [content]; a directory in the journal's place
    or bytes that do not decode would make them raise instead. *)
Definition load_journal : M (option string) :=
  fun self =>
    match journal_file self with
    | None => Returns None self
    | Some content =>
        let status := PyStr.strip content in
        if negb (PyStr.truthy status) then Returns None self
        else Returns (Some status) self
    end.

(** [write_journal], called by the controller thread itself. *)
Definition write_journal : M unit :=
  fun self =>
    match status self with
    | Some s => emit (WriteJournal s) (store_journal self)
    | None => Raises TypeError (store_journal self)
    end.

(** [update_status] *)
Definition update_status (new_status : string) (use_future : bool) : M unit :=
  modify (with_status (Some new_status)) ;;
  if use_future then
    modify (fun self =>
              with_journal_futures (journal_futures self ++ [new_status]) self) ;;
    emit (Submit new_status)
  else write_journal.

(** [cleanup_completed_journal_futures]: [done] is the number of outstanding
    futures that [as_completed(..., timeout=0)] yields before it gives up
    with a [TimeoutError], which the function catches (the built-in
    [TimeoutError], as [concurrent.futures] raises it from Python 3.11 on).
    A background write is taken to run at the moment it is found finished, so
    it stores the status of that moment. *)
Definition cleanup_completed_journal_futures (done : nat) : M unit :=
  modify (fun self =>
            let n := Nat.min done (List.length (journal_futures self)) in
            let self := if (0 <? n)%nat then store_journal self else self in
            with_journal_futures (skipn n (journal_futures self)) self).

(** ** Motor driver *)

(** [gpio_setup] *)
Definition gpio_setup : M bool :=
  fun self =>
    if gpio_initialized self then Returns false self
    else (emit (GpioSetup CH1 OUT) ;;
          emit (GpioSetup CH2 OUT) ;;
          emit (GpioSetup PULSE IN) ;;
          modify (with_gpio_initialized true) ;;
          ret true) self.

(** [stop_and_housekeeping]: both leads high, the settle delay (time only),
    the busy flag cleared, then a blocking wait for every outstanding
    journal future, after which the future table is emptied. *)
Definition stop_and_housekeeping : M unit :=
  gpio_setup ;;
  emit (GpioOutput CH1 1) ;;
  emit (GpioOutput CH2 1) ;;
  modify (with_motor_busy false) ;;
  modify (fun self =>
            match journal_futures self with
            | [] => self
            | _ :: _ => store_journal self
            end) ;;
  modify (with_journal_futures []).

(** [forward] *)
Definition forward : M bool :=
  fun self =>
    if motor_busy self then Returns false self
    else (modify (with_motor_busy true) ;;
          stop_and_housekeeping ;;
          fun self =>
            if faking_it self then Returns true self
            else (emit (GpioOutput CH1 0) ;; ret true) self) self.

(** [reverse] *)
Definition reverse : M bool :=
  fun self =>
    if motor_busy self then Returns false self
    else (modify (with_motor_busy true) ;;
          stop_and_housekeeping ;;
          fun self =>
            if faking_it self then Returns true self
            else (emit (GpioOutput CH2 0) ;; ret true) self) self.

(** ** Pulse counting *)

(** The local variables of the two wait loops.  [polls] counts the
    iterations begun and indexes the environment; [clock] is
    [time.time() - start_time] in milliseconds. *)
Record locals := mk_locals {
  polls : nat;
  clock : Z;
  pulses_seen : Z;
  last_state : option Z
}.

Definition start : locals := mk_locals 0 0 0 None.

(** [if status:] for an optional string argument *)
Definition given (status : option string) : bool :=
  match status with Some p => PyStr.truthy p | None => false end.

Definition prefix_of (status : option string) : string :=
  match status with Some p => p | None => "None" end.

(** f"{status} {pulses-pulses_seen}" *)
Definition progress (status : option string) (remaining : Z) : string :=
  prefix_of status ++ " " ++ PyStr.str remaining.

Section Controller.

Variable E : environment.

(** [GPIO.input(PULSE)] at the i-th poll: 0 or 1 *)
Definition GPIO_input (i : nat) : Z := if level E i then 1 else 0.

(** The loop condition of both wait loops. *)
Definition running (pulses : Z) (v : locals) (self : pimc) : bool :=
  (clock v <? 1000 * maxtime self) && (pulses_seen v <? pulses).

(** One iteration of the loop of [wait_pulses]. *)
Definition wait_body (pulses : Z) (status : option string) (v : locals)
  : M locals :=
  cleanup_completed_journal_futures (ready E (polls v)) ;;
  let clock' := clock v + 50 + Z.of_N (lag E (polls v)) in   (* time.sleep(0.050) *)
  let state := GPIO_input (polls v) in
  match last_state v with
  | None =>
      (* on first iteration, just read the state *)
      ret (mk_locals (S (polls v)) clock' (pulses_seen v) (Some state))
  | Some last =>
      if last <? state then
        let seen := pulses_seen v + 1 in
        (if given status
         then update_status (progress status (pulses - seen)) true
         else ret tt) ;;
        ret (mk_locals (S (polls v)) clock' seen (Some state))
      else ret (mk_locals (S (polls v)) clock' (pulses_seen v) (Some state))
  end.

Fixpoint wait_loop (fuel : nat) (pulses : Z) (status : option string)
  (v : locals) : M locals :=
  fun self =>
    match fuel with
    | O => OutOfFuel
    | S fuel' =>
        if running pulses v self
        then (v' <- wait_body pulses status v ;;
              wait_loop fuel' pulses status v') self
        else Returns v self
    end.

(** [wait_pulses].  Every iteration takes at least 50 ms, so the loop ends
    within [20 * maxtime] iterations; the fuel is that bound. *)
Definition wait_pulses (pulses : Z) (status : option string) : M bool :=
  fun self =>
    (v <- wait_loop (S (Z.to_nat (20 * maxtime self))) pulses status start ;;
     ret (pulses <=? pulses_seen v)) self.

(** One iteration of the loop of [fake_wait_pulses]. *)
Definition fake_wait_body (pulses : Z) (status : option string) (v : locals)
  : M locals :=
  cleanup_completed_journal_futures (ready E (polls v)) ;;
  let clock' := clock v + 1000 + Z.of_N (lag E (polls v)) in   (* time.sleep(1) *)
  let last_state : option Z := Some 0 in   (* for faking it *)
  let state := 1 in
  match last_state with
  | None =>
      ret (mk_locals (S (polls v)) clock' (pulses_seen v) (Some state))
  | Some last =>
      if last <? state then
        let seen := pulses_seen v + 1 in
        (if given status
         then update_status (progress status (pulses - seen)) true
         else ret tt) ;;
        ret (mk_locals (S (polls v)) clock' seen (Some state))
      else ret (mk_locals (S (polls v)) clock' (pulses_seen v) (Some state))
  end.

Fixpoint fake_wait_loop (fuel : nat) (pulses : Z) (status : option string)
  (v : locals) : M locals :=
  fun self =>
    match fuel with
    | O => OutOfFuel
    | S fuel' =>
        if running pulses v self
        then (v' <- fake_wait_body pulses status v ;;
              fake_wait_loop fuel' pulses status v') self
        else Returns v self
    end.

(** [fake_wait_pulses].  Every iteration takes at least a second. *)
Definition fake_wait_pulses (pulses : Z) (status : option string) : M bool :=
  fun self =>
    (v <- fake_wait_loop (S (Z.to_nat (maxtime self))) pulses status start ;;
     ret (pulses <=? pulses_seen v)) self.

(** ** Motion controller *)

(** [self.status == s] *)
Definition status_is (s : string) (self : pimc) : bool :=
  match status self with
  | Some s' => String.eqb s' s
  | None => false
  end.

(** [open].  The result is [Some false] for [return False] and [None] when
    the function falls off its end.  [self.logger(...)] calls the logger
    object, which is a [logging.Logger] and cannot be called. *)
Definition open (pulses : option Z) (resuming : bool) : M (option bool) :=
  fun self =>
    let pulses := match pulses with None => open_pulses self | Some p => p end in
    if negb resuming && negb (status_is "closed" self)
    then Returns (Some false) self
    else
      (ok <- forward ;;
       if negb ok then raise TypeError
       else
         (if negb resuming then update_status "opening" true else ret tt) ;;
         result <- (fun self =>
                      if faking_it self
                      then fake_wait_pulses pulses (Some "opening") self
                      else wait_pulses pulses (Some "opening") self) ;;
         stop_and_housekeeping ;;
         (if result : bool
          then update_status "open" false
          else update_status "failed opening" false) ;;
         ret None) self.

(** [close] *)
Definition close (pulses : option Z) (resuming : bool) : M (option bool) :=
  fun self =>
    let pulses := match pulses with None => close_pulses self | Some p => p end in
    if negb resuming && negb (status_is "open" self)
    then Returns (Some false) self
    else
      (ok <- reverse ;;
       if negb ok then raise TypeError
       else
         (if negb resuming then update_status "closing" true else ret tt) ;;
         result <- (fun self =>
                      if faking_it self
                      then fake_wait_pulses pulses (Some "closing") self
                      else wait_pulses pulses (Some "closing") self) ;;
         stop_and_housekeeping ;;
         (if result : bool
          then update_status "closed" false
          else update_status "failed closing" false) ;;
         ret None) self.

(** [resume].  [remaining] is [None] when [int(...)] raised [ValueError]
    and [Some remaining_pulses] otherwise. *)
Definition resume : M bool :=
  fun self =>
    match status self with
    | None => Raises AttributeError self          (* None.split() *)
    | Some s =>
        let status_split := PyStr.split s in
        match status_split with
        | [] => Raises IndexError self            (* status_split[0] *)
        | word :: _ =>
            let remaining : option (option Z) :=
              if (String.eqb word "opening" || String.eqb word "closing")
                 && (1 <? List.length status_split)%nat
              then option_map Some (PyStr.int (nth 1 status_split ""))
              else Some None in
            match remaining with
            | None => Returns false self
            | Some remaining_pulses =>
                if String.eqb word "opening"
                then (open remaining_pulses true ;; ret true) self
                else if String.eqb word "closing"
                then (close remaining_pulses true ;; ret true) self
                else Returns false self
            end
        end
    end.

(** The arguments of the constructor. *)
Record arguments := {
  arg_journal_filename : string;
  arg_fake_it : bool;
  arg_open_pulses : Z;
  arg_close_pulses : Z;
  arg_maxtime : Z;
  arg_resume : bool
}.

(** [pimc(...)] called when the journal file holds [file]: the outcome of
    [__init__] on the fresh object. *)
Definition __init__ (a : arguments) (file : option string) : outcome unit :=
  (st <- load_journal ;;
   modify (with_status st) ;;
   (fun self => if faking_it self then ret tt self
                else (gpio_setup ;; ret tt) self) ;;
   fun self =>
     match status self with
     | Some s =>
         if arg_resume a && PyStr.truthy s then
           match PyStr.split s with
           | [] => Raises IndexError self
           | word :: _ =>
               if String.eqb word "open" || String.eqb word "closed"
               then Returns tt self
               else (resume ;; ret tt) self
           end
         else Returns tt self
     | None => Returns tt self
     end)
    (mk_pimc (arg_journal_filename a) false [] false (arg_fake_it a)
             (arg_open_pulses a) (arg_close_pulses a) 30 None file []).

End Controller.

(** ** Reading the status, and the command line *)

(** [get_status] *)
Definition get_status : M (option string) := fun self => Returns (status self) self.

(** The [action] argument of the command line, one of its three choices. *)
Inductive action := ActOpen | ActClose | ActStatus.

(** The script's main block, after the arguments are parsed into [a]: the
    controller is built on the journal [file] and the action is carried
    out.  The result is what the [status] action prints: [Some st] for a
    printed status [st] (itself [None] when no status could be loaded), and
    [None] for the two other actions. *)
Definition main (E : environment) (act : action) (a : arguments)
  (file : option string) : outcome (option (option string)) :=
  match __init__ E a file with
  | Returns _ motorcontrol =>
      match act with
      | ActOpen => (open E None false ;; ret None) motorcontrol
      | ActClose => (close E None false ;; ret None) motorcontrol
      | ActStatus => (st <- get_status ;; ret (Some st)) motorcontrol
      end
  | Raises e self => Raises e self
  | OutOfFuel => OutOfFuel
  end.

(** * Definitions used by the statements *)

Open Scope list_scope.

(** The attributes set from the constructor's arguments. *)
Definition same_config (a b : pimc) : Prop :=
  journal_filename b = journal_filename a /\
  faking_it b = faking_it a /\
  open_pulses b = open_pulses a /\
  close_pulses b = close_pulses a /\
  maxtime b = maxtime a.

(** Unfold the monad's combinators. *)
Ltac unfold_monad :=
  cbv [bind ret raise modify emit] in *.

(** The calls [gpio_setup] makes when the pins are not configured yet. *)
Definition setup_events (self : pimc) : list event :=
  if gpio_initialized self then []
  else [GpioSetup CH1 OUT; GpioSetup CH2 OUT; GpioSetup PULSE IN].

(** What the journal file holds once every outstanding future is done. *)
Definition drained_file (self : pimc) : option string :=
  match journal_futures self with
  | [] => journal_file self
  | _ :: _ => journal_file (store_journal self)
  end.

(** The levels read by the first [n] polls of the feedback input. *)
Definition sampled (E : environment) (n : nat) : list bool :=
  map (level E) (seq 0 n).

(** Low-to-high transitions in a sequence of samples: a sample counts when it
    is high and the sample before it is low.  The first sample has no
    predecessor and is only a baseline. *)
Fixpoint transitions (samples : list bool) : nat :=
  match samples with
  | [] => 0
  | a :: rest =>
      match rest with
      | [] => 0
      | b :: _ => (if negb a && b then 1 else 0) + transitions rest
      end
  end%nat.

(** Milliseconds on the clock when the [n]-th loop condition is evaluated,
    for a loop that sleeps [period] ms per iteration. *)
Fixpoint elapsed (period : Z) (E : environment) (n : nat) : Z :=
  match n with
  | O => 0
  | S m => elapsed period E m + period + Z.of_N (lag E m)
  end.

(** The status updates of [m] confirmed pulses towards a target of [k]. *)
Definition countdown (p : option string) (k : Z) (m : nat) : list event :=
  map (fun j => Submit (progress p (k - Z.of_nat j))) (seq 1 m).

(** After [m] iterations that slept [period] ms each and counted [count m]
    pulses: the locals, the status, and the calls made so far. *)
Definition wait_inv (E : environment) (k : Z) (p : option string)
  (self0 : pimc) (period : Z) (count : nat -> nat) (last : nat -> option Z)
  (m : nat) (v : locals) (s : pimc) : Prop :=
  polls v = m /\
  clock v = elapsed period E m /\
  pulses_seen v = Z.of_nat (count m) /\
  last_state v = last m /\
  status s = (if given p && (0 <? count m)%nat
              then Some (progress p (k - Z.of_nat (count m)))
              else status self0) /\
  trace s = trace self0 ++ (if given p then countdown p k (count m) else []) /\
  motor_busy s = motor_busy self0 /\
  gpio_initialized s = gpio_initialized self0 /\
  same_config self0 s.

(** The guard of iteration [i], read off the environment. *)
Definition guard_at (E : environment) (k : Z) (self0 : pimc) (period : Z)
  (count : nat -> nat) (i : nat) : Prop :=
  elapsed period E i < 1000 * maxtime self0 /\ Z.of_nat (count i) < k.

(** The physical loop: pulses are the transitions among the samples polled,
    and the previous sample is remembered from the first poll on. *)
Definition polled (E : environment) (m : nat) : nat := transitions (sampled E m).

(** [last_state] after [m] iterations of the physical loop. *)
Definition previous (E : environment) (m : nat) : option Z :=
  match m with O => None | S j => Some (GPIO_input E j) end.

(** The simulated loop: every iteration counts a pulse, the first one
    included, and the previous sample is overwritten with a low level on
    each iteration. *)
Definition faked (m : nat) : nat := m.

(** [last_state] after [m] iterations of the simulated loop. *)
Definition fake_previous (m : nat) : option Z :=
  match m with O => None | S _ => Some 1 end.

(** The wait an operation performs: [if self.faking_it: fake_wait_pulses(...)
    else: wait_pulses(...)], as [open] and [close] spell it out. *)
Definition drive_wait (E : environment) (pulses : Z) (status : option string)
  : M bool :=
  fun self =>
    if faking_it self then fake_wait_pulses E pulses status self
    else wait_pulses E pulses status self.

(** The baseline rule in the words of the specification: the first iteration
    of a wait loop only records a sample; it counts no pulse and leaves the
    status alone. *)
Definition discards_first_sample
  (body : Z -> option string -> locals -> M locals) : Prop :=
  forall k p self,
  exists v' self',
    body k p start self = Returns v' self' /\
    pulses_seen v' = 0 /\ status self' = status self.

(** Feedback that alternates low, high, low, high, ...; no lag, and
    background writes that finish at once. *)
Definition square_wave : environment :=
  {| level := Nat.odd; lag := fun _ => 0%N; ready := fun _ => 1%nat |}.

(** Feedback that delivers [pulses] pulses and then stays low. *)
Definition stalling (pulses : nat) : environment :=
  {| level := fun i => Nat.odd i && (i <? 2 * pulses)%nat;
     lag := fun _ => 0%N; ready := fun _ => 1%nat |}.

(** Feedback that stays low: a stalled motor or a broken sensor. *)
Definition stalled : environment :=
  {| level := fun _ => false; lag := fun _ => 0%N; ready := fun _ => 1%nat |}.

(** The text [open] and [close] share once the precondition has passed, with
    the drive call, the in-progress word and the two terminal words as
    parameters.  It only serves the proofs: [open_unfold] and [close_unfold]
    show that the two functions are its instances. *)
Definition travel (E : environment) (drive : M bool)
  (word done failed : string) (pulses : Z) (resuming : bool)
  : M (option bool) :=
  ok <- drive ;;
  if negb ok then raise TypeError
  else
    (if negb resuming then update_status word true else ret tt) ;;
    result <- drive_wait E pulses (Some word) ;;
    stop_and_housekeeping ;;
    (if result : bool
     then update_status done false
     else update_status failed false) ;;
    ret None.

(** Both leads high: the motor stopped. *)
Definition stop_events : list event := [GpioOutput CH1 1; GpioOutput CH2 1].

(** The calls of a whole travel on lead [lead] that counted [m] pulses
    towards [k] and ended in the terminal status [terminal]. *)
Definition travel_events (self : pimc) (lead : Z) (word : string)
  (resuming : bool) (k : Z) (m : nat) (terminal : string) : list event :=
  setup_events self ++ stop_events
  ++ (if faking_it self then [] else [GpioOutput lead 0])
  ++ (if resuming then [] else [Submit word])
  ++ countdown (Some word) k m
  ++ stop_events ++ [WriteJournal terminal].

(** A string without whitespace. *)
Fixpoint no_space (s : string) : bool :=
  match s with
  | EmptyString => true
  | String c r => negb (PyStr.isspace c) && no_space r
  end.

(** A string of decimal digits. *)
Fixpoint all_digits (s : string) : bool :=
  match s with
  | EmptyString => true
  | String c r => PyStr.isdigit c && all_digits r
  end.

(** The status [load_journal] yields for a journal file. *)
Definition loaded (file : option string) : option string :=
  match file with
  | None => None
  | Some content =>
      if PyStr.truthy (PyStr.strip content)
      then Some (PyStr.strip content) else None
  end.

(** The object [__init__] has built when it reaches its resume logic. *)
Definition constructed (a : arguments) (file : option string) : pimc :=
  mk_pimc (arg_journal_filename a) (negb (arg_fake_it a)) [] false
          (arg_fake_it a) (arg_open_pulses a) (arg_close_pulses a) 30
          (loaded file) file
          (if arg_fake_it a then []
           else [GpioSetup CH1 OUT; GpioSetup CH2 OUT; GpioSetup PULSE IN]).

(** The arguments the command line passes by default, with [pulses] for
    both travels and no resuming. *)
Definition defaults (fake : bool) (pulses : Z) : arguments :=
  {| arg_journal_filename := "pimc_status"; arg_fake_it := fake;
     arg_open_pulses := pulses; arg_close_pulses := pulses; arg_maxtime := 30;
     arg_resume := false |}.

(** The controller that [pimc(...)] builds from those arguments when the
    journal file holds [journal]. *)
Definition door (fake : bool) (pulses : Z) (journal : string) : pimc :=
  constructed (defaults fake pulses) (Some journal).

(** The command line's defaults, with a maximum runtime of ten seconds. *)
Definition ten_seconds (resume : bool) : arguments :=
  {| arg_journal_filename := "pimc_status"; arg_fake_it := false;
     arg_open_pulses := 11; arg_close_pulses := 11; arg_maxtime := 10;
     arg_resume := resume |}.

(** The line feed, as a string. *)
Definition newline : string := String "010" EmptyString.

(** The value last written to each of the two leads, [None] before the
    first write: lead 1 first, lead 2 second. *)
Definition levels : Type := (option Z * option Z)%type.

Definition write_lead (l : levels) (e : event) : levels :=
  match e with
  | GpioOutput pin value =>
      if pin =? CH1 then (Some value, snd l)
      else if pin =? CH2 then (fst l, Some value)
      else l
  | _ => l
  end.

Definition levels_after (l : levels) (t : list event) : levels :=
  fold_left write_lead t l.

(** Both leads low: both relays enabled at once. *)
Definition both_low (l : levels) : bool :=
  match l with
  | (Some 0, Some 0) => true
  | _ => false
  end.

(** No event of [t], played from the levels [l], leaves both leads low. *)
Fixpoint safe_from (l : levels) (t : list event) : bool :=
  match t with
  | [] => true
  | e :: t' => negb (both_low (write_lead l e)) && safe_from (write_lead l e) t'
  end.

Definition never_both_low (t : list event) : Prop :=
  safe_from (None, None) t = true.

(** A trace without writes to the leads. *)
Definition quiet (t : list event) : bool :=
  forallb (fun e => match e with GpioOutput _ _ => false | _ => true end) t.

(** The number of [GPIO.setup] calls in a trace. *)
Definition setup_count (t : list event) : nat :=
  List.length (filter (fun e => match e with GpioSetup _ _ => true | _ => false end) t).

(** The pins were configured exactly when the object says so. *)
Definition pins_configured_once (self : pimc) : Prop :=
  setup_count (trace self) = if gpio_initialized self then 3%nat else 0%nat.

(** [self'] is [self] after a whole travel on lead [lead] towards [k]
    pulses: status and journal hold a terminal word, nothing is outstanding,
    the motor is idle and the calls made are those of a travel. *)
Definition travelled (self : pimc) (lead : Z) (word done failed : string)
  (resuming : bool) (k : Z) (self' : pimc) : Prop :=
  exists m : nat,
    let terminal := if k <=? Z.of_nat m then done else failed in
    status self' = Some terminal /\
    journal_file self' = Some terminal /\
    journal_futures self' = [] /\
    motor_busy self' = false /\
    gpio_initialized self' = true /\
    trace self' = trace self ++ travel_events self lead word resuming k m terminal /\
    same_config self self'.

(** The four words a finished operation leaves as status. *)
Definition terminal_word (s : string) : bool :=
  String.eqb s "open" || String.eqb s "closed"
  || String.eqb s "failed opening" || String.eqb s "failed closing".

(** An object between two operations: the motor idle, no journal future
    outstanding, the journal file agreeing with the status, the leads never
    low together and, if written at all, both high. *)
Definition at_rest (self : pimc) : Prop :=
  motor_busy self = false /\
  journal_futures self = [] /\
  load_journal self = Returns (status self) self /\
  never_both_low (trace self) /\
  (levels_after (None, None) (trace self) = (None, None) \/
   levels_after (None, None) (trace self) = (Some 1, Some 1)).

(** Feedback that stays low for 588 polls and is high at the next one, each
    iteration overrunning its sleep by one millisecond: poll 588 begins
    29.988 s after the start and reads its sample 30.038 s after it. *)
Definition late_pulse : environment :=
  {| level := fun i => (i =? 588)%nat; lag := fun _ => 1%N;
     ready := fun _ => 0%nat |}.

(** The clock when the sample of poll [i] is read, at the earliest: the poll
    begins and sleeps its [period] first. *)
Definition read_at (period : Z) (E : environment) (i : nat) : Z :=
  elapsed period E i + period.


(** * Verification *)

(** ** The string helpers on examples *)

Example split_ex1 : PyStr.split "opening 7" = ["opening"; "7"].
Proof. reflexivity. Qed.
Example split_ex2 : PyStr.split "  failed   opening " = ["failed"; "opening"].
Proof. reflexivity. Qed.
Example strip_ex1 : PyStr.strip (" closed" ++ String "010" "") = "closed".
Proof. reflexivity. Qed.
Example str_ex1 : PyStr.str 10 = "10" /\ PyStr.str 0 = "0" /\ PyStr.str (-3) = "-3".
Proof. repeat split. Qed.
Example int_ex1 :
  PyStr.int "7" = Some 7 /\ PyStr.int "-12" = Some (-12) /\
  PyStr.int "1_0" = Some 10 /\ PyStr.int "007" = Some 7 /\
  PyStr.int "x" = None /\ PyStr.int "" = None /\ PyStr.int "1__0" = None /\
  PyStr.int "3.5" = None /\ PyStr.int "_1" = None /\ PyStr.int "1_" = None.
Proof. repeat split. Qed.

(** ** Facts about the string helpers *)

Lemma isdigit_not_space c : PyStr.isdigit c = true -> PyStr.isspace c = false.
Proof.
  unfold PyStr.isdigit, PyStr.isspace. cbv zeta.
  generalize (nat_of_ascii c). intros n H.
  apply andb_prop in H as [H1 H2].
  apply Nat.leb_le in H1. apply Nat.leb_le in H2.
  apply orb_false_iff. split; apply andb_false_iff; right;
    apply Nat.leb_gt; lia.
Qed.

Lemma isdigit_not_sign c :
  PyStr.isdigit c = true ->
  Ascii.eqb c "+" = false /\ Ascii.eqb c "-" = false /\ Ascii.eqb c "_" = false.
Proof.
  intros H. repeat split; apply Ascii.eqb_neq; intros ->; discriminate H.
Qed.

Lemma all_digits_no_space s : all_digits s = true -> no_space s = true.
Proof.
  induction s as [|c r IH]; simpl; [reflexivity|].
  intros H. apply andb_prop in H as [Hc Hr].
  now rewrite (isdigit_not_space c Hc), IH.
Qed.

Lemma lstrip_no_space s : no_space s = true -> PyStr.lstrip s = s.
Proof.
  destruct s as [|c r]; simpl; [reflexivity|].
  intros H. apply andb_prop in H as [Hc _].
  apply negb_true_iff in Hc. now rewrite Hc.
Qed.

Lemma rstrip_no_space s : no_space s = true -> PyStr.rstrip s = s.
Proof.
  induction s as [|c r IH]; simpl; [reflexivity|].
  intros H. apply andb_prop in H as [Hc Hr].
  apply negb_true_iff in Hc. rewrite (IH Hr), Hc. now destruct r.
Qed.

Lemma strip_no_space s : no_space s = true -> PyStr.strip s = s.
Proof.
  intros H. unfold PyStr.strip. now rewrite lstrip_no_space, rstrip_no_space.
Qed.

Lemma split_inside_word c c' r :
  PyStr.isspace c = false -> PyStr.isspace c' = false ->
  PyStr.split (String c (String c' r)) =
  match PyStr.split (String c' r) with
  | w :: ws => String c w :: ws
  | [] => [String c EmptyString]
  end.
Proof.
  intros Hc Hc'.
  change (PyStr.split (String c (String c' r)))
    with (if PyStr.isspace c then PyStr.split (String c' r)
          else if PyStr.isspace c'
               then String c EmptyString :: PyStr.split (String c' r)
               else match PyStr.split (String c' r) with
                    | w :: ws => String c w :: ws
                    | [] => [String c EmptyString]
                    end).
  now rewrite Hc, Hc'.
Qed.

Lemma split_word w :
  w <> EmptyString -> no_space w = true -> PyStr.split w = [w].
Proof.
  induction w as [|c r IH]; [congruence|]. intros _ H.
  simpl in H. apply andb_prop in H as [Hc Hr].
  apply negb_true_iff in Hc.
  destruct r as [|c' r'].
  - simpl. now rewrite Hc.
  - assert (Hc' : PyStr.isspace c' = false).
    { simpl in Hr. apply andb_prop in Hr as [Hc' _]. now apply negb_true_iff. }
    rewrite split_inside_word, IH; auto. congruence.
Qed.

Lemma split_word_space w rest :
  w <> EmptyString -> no_space w = true ->
  PyStr.split (w ++ String " " rest)%string = w :: PyStr.split rest.
Proof.
  induction w as [|c r IH]; [congruence|]. intros _ H.
  simpl in H. apply andb_prop in H as [Hc Hr].
  apply negb_true_iff in Hc.
  destruct r as [|c' r'].
  - simpl. now rewrite Hc.
  - assert (Hc' : PyStr.isspace c' = false).
    { simpl in Hr. apply andb_prop in Hr as [Hc' _]. now apply negb_true_iff. }
    change ((String c (String c' r') ++ String " " rest)%string)
      with (String c (String c' (r' ++ String " " rest)%string)).
    rewrite split_inside_word; auto.
    change (String c' (r' ++ String " " rest)%string)
      with ((String c' r' ++ String " " rest)%string).
    rewrite IH; auto. congruence.
Qed.

(** A persisted in-progress status splits into its word and its token. *)
Lemma split_in_progress word token :
  word <> EmptyString -> no_space word = true ->
  token <> EmptyString -> no_space token = true ->
  PyStr.split (word ++ " " ++ token)%string = [word; token].
Proof.
  intros Hw1 Hw2 Ht1 Ht2.
  change (word ++ " " ++ token)%string with (word ++ String " " token)%string.
  rewrite split_word_space, split_word; auto.
Qed.

Lemma string_of_uint_digits d :
  all_digits (NilEmpty.string_of_uint d) = true.
Proof. induction d; simpl; auto. Qed.

Lemma digits_all_digits s b :
  all_digits s = true -> (s <> EmptyString \/ b = true) ->
  PyStr.digits b s = Some s.
Proof.
  revert b. induction s as [|c r IH]; intros b H Hne; simpl.
  - destruct Hne as [? | ->]; [congruence|reflexivity].
  - simpl in H. apply andb_prop in H as [Hc Hr].
    destruct (isdigit_not_sign c Hc) as (_ & _ & ->). rewrite Hc.
    rewrite (IH true); auto.
Qed.

Lemma unsigned_of_uint d :
  PyStr.unsigned (NilZero.string_of_uint d) = Some (Z.of_uint d).
Proof.
  unfold PyStr.unsigned, NilZero.string_of_uint.
  destruct d; try reflexivity;
    (rewrite digits_all_digits;
     [rewrite NilEmpty.usu; reflexivity
     |apply string_of_uint_digits
     |left; simpl; congruence]).
Qed.

Lemma string_of_uint_shape d :
  exists c r, NilZero.string_of_uint d = String c r /\
              PyStr.isdigit c = true /\ all_digits r = true.
Proof.
  pose proof (string_of_uint_digits d) as H.
  unfold NilZero.string_of_uint.
  destruct d; simpl in *; eexists _, _; (split; [reflexivity|]); auto.
Qed.

(** [int(str(n)) == n] *)
Lemma int_str n : PyStr.int (PyStr.str n) = Some n.
Proof.
  unfold PyStr.str, PyStr.int. destruct n as [|q|q]; [reflexivity| |].
  - cbn [Z.to_int NilZero.string_of_int].
    destruct (string_of_uint_shape (Pos.to_uint q)) as (c & r & Heq & Hc & Hr).
    pose proof (unsigned_of_uint (Pos.to_uint q)) as Hu.
    rewrite Heq in *.
    rewrite strip_no_space
      by (simpl; rewrite (isdigit_not_space c Hc), all_digits_no_space; auto).
    transitivity (PyStr.unsigned (String c r)).
    { clear - Hc.
      destruct c as [[] [] [] [] [] [] [] []]; try reflexivity;
        vm_compute in Hc; discriminate Hc. }
    rewrite Hu. unfold Z.of_uint.
    rewrite DecimalPos.Unsigned.of_to. reflexivity.
  - cbn [Z.to_int NilZero.string_of_int].
    destruct (string_of_uint_shape (Pos.to_uint q)) as (c & r & Heq & Hc & Hr).
    pose proof (unsigned_of_uint (Pos.to_uint q)) as Hu.
    rewrite strip_no_space.
    + cbn [append]. rewrite Hu. unfold Z.of_uint.
      rewrite DecimalPos.Unsigned.of_to. reflexivity.
    + rewrite Heq. cbn [append no_space].
      rewrite (isdigit_not_space c Hc), all_digits_no_space; auto.
Qed.

Lemma str_word n :
  PyStr.str n <> EmptyString /\ no_space (PyStr.str n) = true.
Proof.
  unfold PyStr.str.
  destruct n as [|q|q]; cbn [Z.to_int NilZero.string_of_int].
  - split; [discriminate|reflexivity].
  - destruct (string_of_uint_shape (Pos.to_uint q)) as (c & r & -> & Hc & Hr).
    split; [discriminate|]. simpl.
    rewrite (isdigit_not_space c Hc), all_digits_no_space; auto.
  - destruct (string_of_uint_shape (Pos.to_uint q)) as (c & r & -> & Hc & Hr).
    split; [discriminate|]. cbn [append no_space].
    rewrite (isdigit_not_space c Hc), all_digits_no_space; auto.
Qed.

(** ** The configuration is never written after construction *)

Lemma same_config_refl a : same_config a a.
Proof. repeat split. Qed.

Lemma same_config_trans a b c :
  same_config a b -> same_config b c -> same_config a c.
Proof.
  unfold same_config. intros (?&?&?&?&?) (?&?&?&?&?).
  repeat split; congruence.
Qed.

(** ** Driver and journal primitives, one by one *)

Lemma update_status_async s self :
  exists self',
    update_status s true self = Returns tt self' /\
    status self' = Some s /\
    journal_futures self' = journal_futures self ++ [s] /\
    trace self' = trace self ++ [Submit s] /\
    journal_file self' = journal_file self /\
    motor_busy self' = motor_busy self /\
    gpio_initialized self' = gpio_initialized self /\
    same_config self self'.
Proof.
  eexists. unfold update_status. unfold_monad. simpl.
  repeat split.
Qed.

Lemma update_status_sync s self :
  exists self',
    update_status s false self = Returns tt self' /\
    status self' = Some s /\
    journal_file self' = Some s /\
    journal_futures self' = journal_futures self /\
    trace self' = trace self ++ [WriteJournal s] /\
    motor_busy self' = motor_busy self /\
    gpio_initialized self' = gpio_initialized self /\
    same_config self self'.
Proof.
  eexists. unfold update_status, write_journal. unfold_monad. simpl.
  repeat split.
Qed.

Lemma cleanup_returns done self :
  exists self',
    cleanup_completed_journal_futures done self = Returns tt self' /\
    status self' = status self /\
    trace self' = trace self /\
    motor_busy self' = motor_busy self /\
    gpio_initialized self' = gpio_initialized self /\
    same_config self self'.
Proof.
  eexists. unfold cleanup_completed_journal_futures. unfold_monad.
  split; [reflexivity|].
  destruct (0 <? Nat.min done (List.length (journal_futures self)))%nat;
    repeat split.
Qed.

Lemma stop_and_housekeeping_returns self :
  exists self',
    stop_and_housekeeping self = Returns tt self' /\
    motor_busy self' = false /\
    journal_futures self' = [] /\
    gpio_initialized self' = true /\
    status self' = status self /\
    journal_file self' = drained_file self /\
    trace self' =
      trace self ++ setup_events self ++ [GpioOutput CH1 1; GpioOutput CH2 1] /\
    same_config self self'.
Proof.
  unfold stop_and_housekeeping, gpio_setup, setup_events, drained_file.
  unfold_monad.
  destruct (gpio_initialized self) eqn:Hg; simpl;
    destruct (journal_futures self) eqn:Hf; simpl;
    eexists; (split; [reflexivity|]); simpl; rewrite <- ?app_assoc;
    repeat split; auto.
Qed.

(** [forward] on an idle motor: the leads are stopped, then lead 1 is driven
    (unless faking), and the busy flag is already back to [False] when the
    function returns. *)
Lemma forward_idle self :
  motor_busy self = false ->
  exists self',
    forward self = Returns true self' /\
    motor_busy self' = false /\
    journal_futures self' = [] /\
    gpio_initialized self' = true /\
    status self' = status self /\
    journal_file self' = drained_file self /\
    trace self' =
      trace self ++ setup_events self ++ [GpioOutput CH1 1; GpioOutput CH2 1]
      ++ (if faking_it self then [] else [GpioOutput CH1 0]) /\
    same_config self self'.
Proof.
  intros Hb. unfold forward. rewrite Hb.
  destruct (stop_and_housekeeping_returns (with_motor_busy true self))
    as (s1 & Hs & Hb1 & Hf1 & Hg1 & Hst1 & Hj1 & Ht1 & Hc1).
  unfold bind at 1. unfold modify at 1. unfold bind at 1. rewrite Hs.
  assert (Hfk : faking_it s1 = faking_it self) by apply Hc1.
  rewrite Hfk.
  destruct (faking_it self) eqn:Hfake.
  - exists s1. rewrite app_nil_r. repeat split; try apply Hc1; auto.
  - unfold_monad. eexists. split; [reflexivity|]. simpl.
    rewrite Ht1. simpl. rewrite <- !app_assoc. simpl.
    repeat split; try apply Hc1; auto.
Qed.

Lemma reverse_idle self :
  motor_busy self = false ->
  exists self',
    reverse self = Returns true self' /\
    motor_busy self' = false /\
    journal_futures self' = [] /\
    gpio_initialized self' = true /\
    status self' = status self /\
    journal_file self' = drained_file self /\
    trace self' =
      trace self ++ setup_events self ++ [GpioOutput CH1 1; GpioOutput CH2 1]
      ++ (if faking_it self then [] else [GpioOutput CH2 0]) /\
    same_config self self'.
Proof.
  intros Hb. unfold reverse. rewrite Hb.
  destruct (stop_and_housekeeping_returns (with_motor_busy true self))
    as (s1 & Hs & Hb1 & Hf1 & Hg1 & Hst1 & Hj1 & Ht1 & Hc1).
  unfold bind at 1. unfold modify at 1. unfold bind at 1. rewrite Hs.
  assert (Hfk : faking_it s1 = faking_it self) by apply Hc1.
  rewrite Hfk.
  destruct (faking_it self) eqn:Hfake.
  - exists s1. rewrite app_nil_r. repeat split; try apply Hc1; auto.
  - unfold_monad. eexists. split; [reflexivity|]. simpl.
    rewrite Ht1. simpl. rewrite <- !app_assoc. simpl.
    repeat split; try apply Hc1; auto.
Qed.

Lemma forward_busy self :
  motor_busy self = true -> forward self = Returns false self.
Proof. intros Hb. unfold forward. now rewrite Hb. Qed.

Lemma reverse_busy self :
  motor_busy self = true -> reverse self = Returns false self.
Proof. intros Hb. unfold reverse. now rewrite Hb. Qed.

(** ** Transitions among the samples polled *)

Lemma sampled_S E n : sampled E (S n) = sampled E n ++ [level E n].
Proof. unfold sampled. now rewrite seq_S, map_app. Qed.

Lemma transitions_snoc l a b :
  transitions (l ++ [a; b]) =
  (transitions (l ++ [a]) + (if negb a && b then 1 else 0))%nat.
Proof.
  induction l as [|c l IH]; simpl.
  - lia.
  - destruct l as [|d l]; simpl in *; lia.
Qed.

Lemma transitions_sampled_0 E : transitions (sampled E 0) = 0%nat.
Proof. reflexivity. Qed.

Lemma transitions_sampled_1 E : transitions (sampled E 1) = 0%nat.
Proof. reflexivity. Qed.

Lemma transitions_sampled_SS E j :
  transitions (sampled E (S (S j))) =
  (transitions (sampled E (S j))
   + (if negb (level E j) && level E (S j) then 1 else 0))%nat.
Proof.
  rewrite (sampled_S E (S j)), (sampled_S E j), <- app_assoc. simpl app.
  apply transitions_snoc.
Qed.

Lemma transitions_sampled_step E i :
  (transitions (sampled E i) <= transitions (sampled E (S i))
   <= transitions (sampled E i) + 1)%nat.
Proof.
  destruct i as [|j].
  - rewrite transitions_sampled_0, transitions_sampled_1. lia.
  - rewrite transitions_sampled_SS.
    destruct (negb (level E j) && level E (S j)); lia.
Qed.

Lemma transitions_sampled_mono E i j :
  (i <= j)%nat -> (transitions (sampled E i) <= transitions (sampled E j))%nat.
Proof.
  induction 1 as [|j _ IH]; [lia|].
  pose proof (transitions_sampled_step E j). lia.
Qed.

Lemma countdown_S p k m :
  countdown p k (S m) =
  countdown p k m ++ [Submit (progress p (k - Z.of_nat (S m)))].
Proof. unfold countdown. now rewrite seq_S, map_app. Qed.

(** ** A while loop with an invariant *)

Section Loop.

Variable k : Z.
Variable period : Z.
Variable body : locals -> M locals.
Variable loop : nat -> locals -> M locals.
Variable Inv : nat -> locals -> pimc -> Prop.
Variable G : nat -> Prop.

Hypothesis loop_eq : forall fuel v self,
  loop fuel v self =
  match fuel with
  | O => OutOfFuel
  | S fuel' =>
      if running k v self then (v' <- body v ;; loop fuel' v') self
      else Returns v self
  end.
Hypothesis guard_holds : forall m v s,
  Inv m v s -> running k v s = true -> G m.
Hypothesis step : forall m v s,
  Inv m v s -> running k v s = true ->
  exists v' s',
    body v s = Returns v' s' /\ Inv (S m) v' s' /\
    clock v + period <= clock v' /\ maxtime s' = maxtime s.

(** With fuel for the iterations that fit before the timeout, the loop
    returns; it does so at the first condition that fails. *)
Lemma loop_runs fuel : forall m v s,
  Inv m v s ->
  1000 * maxtime s - clock v <= period * Z.of_nat fuel ->
  exists n v' s',
    (m <= n)%nat /\
    loop (S fuel) v s = Returns v' s' /\
    Inv n v' s' /\
    running k v' s' = false /\
    (forall i, (m <= i < n)%nat -> G i).
Proof.
  induction fuel as [|fuel IH]; intros m v s HI Hfuel.
  - rewrite loop_eq. destruct (running k v s) eqn:Hrun.
    + exfalso. unfold running in Hrun.
      apply andb_prop in Hrun as [Hc _]. apply Z.ltb_lt in Hc. lia.
    + exists m, v, s. repeat split; auto. intros i Hi. lia.
  - rewrite loop_eq. destruct (running k v s) eqn:Hrun.
    + destruct (step m v s HI Hrun) as (v1 & s1 & Hb & HI1 & Hclk & Hmax).
      unfold bind. rewrite Hb.
      destruct (IH (S m) v1 s1 HI1) as (n & v' & s' & Hmn & Hl & HIn & Hstop & HG).
      { rewrite Hmax. lia. }
      exists n, v', s'. repeat split; auto; try lia.
      intros i Hi. destruct (Nat.eq_dec i m) as [->|Hne].
      * eapply guard_holds; eauto.
      * apply HG. lia.
    + exists m, v, s. repeat split; auto. intros i Hi. lia.
Qed.

End Loop.

(** ** Invariants of the two wait loops *)

Section WaitInvariant.

Variable E : environment.
Variable k : Z.
Variable p : option string.
Variable self0 : pimc.

Lemma wait_inv_guard period count last m v s :
  wait_inv E k p self0 period count last m v s -> running k v s = true ->
  guard_at E k self0 period count m.
Proof.
  intros (Hp & Hc & Hs & _ & _ & _ & _ & _ & Hcfg) Hrun.
  unfold running in Hrun. apply andb_prop in Hrun as [H1 H2].
  apply Z.ltb_lt in H1, H2. destruct Hcfg as (_&_&_&_&Hmax).
  unfold guard_at. rewrite <- Hc, <- Hs, <- Hmax. auto.
Qed.

Lemma wait_inv_stop period count last m v s :
  wait_inv E k p self0 period count last m v s -> running k v s = false ->
  k <= Z.of_nat (count m) \/ 1000 * maxtime self0 <= elapsed period E m.
Proof.
  intros (Hp & Hc & Hs & _ & _ & _ & _ & _ & Hcfg) Hrun.
  unfold running in Hrun. destruct Hcfg as (_&_&_&_&Hmax).
  rewrite <- Hc, <- Hs, <- Hmax.
  apply andb_false_iff in Hrun as [H|H]; apply Z.ltb_ge in H; auto.
Qed.

Lemma rising_edge j :
  (GPIO_input E j <? GPIO_input E (S j)) = negb (level E j) && level E (S j).
Proof.
  unfold GPIO_input. destruct (level E j), (level E (S j)); reflexivity.
Qed.

Lemma wait_body_step m v s :
  wait_inv E k p self0 50 (polled E) (previous E) m v s ->
  exists v' s',
    wait_body E k p v s = Returns v' s' /\
    wait_inv E k p self0 50 (polled E) (previous E) (S m) v' s' /\
    clock v + 50 <= clock v' /\ maxtime s' = maxtime s.
Proof.
  intros (Hp & Hc & Hs & Hl & Hst & Htr & Hb & Hg & Hcfg).
  unfold wait_body.
  destruct (cleanup_returns (ready E (polls v)) s)
    as (s1 & Hcl & Hst1 & Htr1 & Hb1 & Hg1 & Hcfg1).
  unfold bind at 1. rewrite Hcl. rewrite Hl, Hp.
  assert (Hcfg01 := same_config_trans _ _ _ Hcfg Hcfg1).
  assert (Hmax : maxtime s1 = maxtime s) by apply Hcfg1.
  destruct m as [|j];
    [change (previous E 0) with (@None Z)
    |change (previous E (S j)) with (Some (GPIO_input E j))]; cbv beta iota.
  - (* first iteration: the sample is only remembered *)
    eexists _, s1. split; [reflexivity|].
    split; [|simpl; split; [lia|exact Hmax]].
    unfold wait_inv, polled in *. simpl polls. simpl clock.
    simpl pulses_seen. simpl last_state.
    rewrite transitions_sampled_1. rewrite transitions_sampled_0 in *.
    rewrite Hc, Hs, Hst1, Htr1, Hb1, Hg1. simpl elapsed.
    repeat split; auto; try apply Hcfg01.
  - rewrite rising_edge.
    assert (HSS := transitions_sampled_SS E j).
    destruct (negb (level E j) && level E (S j)) eqn:Hedge.
    + (* a pulse *)
      assert (Hcnt : polled E (S (S j)) = S (polled E (S j)))
        by (unfold polled; lia).
      destruct (given p) eqn:Hgiven.
      * destruct (update_status_async
                    (progress p (k - (pulses_seen v + 1))) s1)
          as (s2 & Hup & Hst2 & _ & Htr2 & _ & Hb2 & Hg2 & Hcfg2).
        unfold bind at 1. rewrite Hup.
        eexists _, s2. split; [reflexivity|].
        assert (Hcfg02 := same_config_trans _ _ _ Hcfg01 Hcfg2).
        split; [|simpl; split; [lia|destruct Hcfg2 as (_&_&_&_&->); exact Hmax]].
        unfold wait_inv. simpl polls. simpl clock. simpl pulses_seen.
        simpl last_state. rewrite Hcnt, countdown_S.
        rewrite Hgiven.
        rewrite Hst2, Htr2, Htr1, Htr, Hb2, Hb1, Hg2, Hg1, Hc, Hs.
        cbn [andb Nat.ltb Nat.leb]. simpl elapsed. rewrite <- app_assoc.
        replace (Z.of_nat (polled E (S j)) + 1) with (Z.of_nat (S (polled E (S j))))
          by lia.
        repeat split; auto; try apply Hcfg02.
      * unfold bind at 1. unfold ret at 1.
        eexists _, s1. split; [reflexivity|].
        split; [|simpl; split; [lia|exact Hmax]].
        unfold wait_inv. simpl polls. simpl clock. simpl pulses_seen.
        simpl last_state.
        rewrite Hgiven. cbn [andb] in Hst |- *.
        rewrite Hst1, Htr1, Htr, Hst, Hb1, Hg1, Hc, Hs, Hcnt.
        simpl elapsed.
        repeat split; auto; try apply Hcfg01. lia.
    + (* no pulse *)
      assert (Hcnt : polled E (S (S j)) = polled E (S j))
        by (unfold polled; lia).
      eexists _, s1. split; [reflexivity|].
      split; [|simpl; split; [lia|exact Hmax]].
      unfold wait_inv. simpl polls. simpl clock. simpl pulses_seen.
      simpl last_state.
      rewrite Hst1, Htr1, Htr, Hst, Hb1, Hg1, Hc, Hs, Hcnt. simpl elapsed.
      repeat split; auto; try apply Hcfg01.
Qed.

Lemma fake_wait_body_step m v s :
  wait_inv E k p self0 1000 faked fake_previous m v s ->
  exists v' s',
    fake_wait_body E k p v s = Returns v' s' /\
    wait_inv E k p self0 1000 faked fake_previous (S m) v' s' /\
    clock v + 1000 <= clock v' /\ maxtime s' = maxtime s.
Proof.
  intros (Hp & Hc & Hs & Hl & Hst & Htr & Hb & Hg & Hcfg).
  unfold fake_wait_body.
  destruct (cleanup_returns (ready E (polls v)) s)
    as (s1 & Hcl & Hst1 & Htr1 & Hb1 & Hg1 & Hcfg1).
  unfold bind at 1. rewrite Hcl. rewrite Hp.
  assert (Hcfg01 := same_config_trans _ _ _ Hcfg Hcfg1).
  assert (Hmax : maxtime s1 = maxtime s) by apply Hcfg1.
  change (0 <? 1) with true. cbv beta iota.
  unfold faked in *.
  destruct (given p) eqn:Hgiven.
  - destruct (update_status_async
                (progress p (k - (pulses_seen v + 1))) s1)
      as (s2 & Hup & Hst2 & _ & Htr2 & _ & Hb2 & Hg2 & Hcfg2).
    unfold bind at 1. rewrite Hup.
    eexists _, s2. split; [reflexivity|].
    assert (Hcfg02 := same_config_trans _ _ _ Hcfg01 Hcfg2).
    split; [|simpl; split; [lia|destruct Hcfg2 as (_&_&_&_&->); exact Hmax]].
    unfold wait_inv. simpl polls. simpl clock. simpl pulses_seen.
    simpl last_state. rewrite countdown_S.
    rewrite Hgiven.
    rewrite Hst2, Htr2, Htr1, Htr, Hb2, Hb1, Hg2, Hg1, Hc, Hs.
    cbn [andb Nat.ltb Nat.leb]. simpl elapsed. rewrite <- app_assoc.
    replace (Z.of_nat m + 1) with (Z.of_nat (S m)) by lia.
    repeat split; auto; try apply Hcfg02.
  - unfold bind at 1. unfold ret at 1.
    eexists _, s1. split; [reflexivity|].
    split; [|simpl; split; [lia|exact Hmax]].
    unfold wait_inv. simpl polls. simpl clock. simpl pulses_seen.
    simpl last_state.
    rewrite Hgiven. cbn [andb] in Hst |- *.
    rewrite Hst1, Htr1, Htr, Hst, Hb1, Hg1, Hc, Hs.
    simpl elapsed.
    repeat split; auto; try apply Hcfg01. lia.
Qed.

End WaitInvariant.

(** ** Both wait functions return, and what they return *)

Lemma wait_inv_start E k p self period count last :
  count O = O -> last O = None ->
  wait_inv E k p self period count last 0 start self.
Proof.
  intros Hc Hl. unfold wait_inv. rewrite Hc, Hl.
  rewrite andb_false_r. simpl.
  destruct (given p); rewrite app_nil_r; repeat split.
Qed.

Lemma wait_pulses_runs E k p self :
  exists n v self',
    wait_pulses E k p self = Returns (k <=? Z.of_nat (polled E n)) self' /\
    wait_inv E k p self 50 (polled E) (previous E) n v self' /\
    (forall i, (i < n)%nat -> guard_at E k self 50 (polled E) i) /\
    (k <= Z.of_nat (polled E n) \/ 1000 * maxtime self <= elapsed 50 E n).
Proof.
  destruct (loop_runs k 50 (wait_body E k p) (fun f => wait_loop E f k p)
              (wait_inv E k p self 50 (polled E) (previous E))
              (guard_at E k self 50 (polled E)))
    with (fuel := Z.to_nat (20 * maxtime self)) (m := O) (v := start) (s := self)
    as (n & v & s' & _ & Hl & HI & Hstop & HG).
  - intros [|f] v s; reflexivity.
  - apply wait_inv_guard.
  - intros m v s HI _. apply wait_body_step, HI.
  - apply wait_inv_start; reflexivity.
  - change (clock start) with 0. lia.
  - exists n, v, s'. unfold wait_pulses, bind. rewrite Hl. unfold ret.
    split; [|split; [exact HI|split]].
    + f_equal. destruct HI as (_ & _ & -> & _). reflexivity.
    + intros i Hi. apply HG. lia.
    + eapply wait_inv_stop; eauto.
Qed.

Lemma fake_wait_pulses_runs E k p self :
  exists n v self',
    fake_wait_pulses E k p self = Returns (k <=? Z.of_nat n) self' /\
    wait_inv E k p self 1000 faked fake_previous n v self' /\
    (forall i, (i < n)%nat -> guard_at E k self 1000 faked i) /\
    (k <= Z.of_nat n \/ 1000 * maxtime self <= elapsed 1000 E n).
Proof.
  destruct (loop_runs k 1000 (fake_wait_body E k p)
              (fun f => fake_wait_loop E f k p)
              (wait_inv E k p self 1000 faked fake_previous)
              (guard_at E k self 1000 faked))
    with (fuel := Z.to_nat (maxtime self)) (m := O) (v := start) (s := self)
    as (n & v & s' & _ & Hl & HI & Hstop & HG).
  - intros [|f] v s; reflexivity.
  - apply wait_inv_guard.
  - intros m v s HI _. apply fake_wait_body_step, HI.
  - apply wait_inv_start; reflexivity.
  - change (clock start) with 0. lia.
  - exists n, v, s'. unfold fake_wait_pulses, bind. rewrite Hl. unfold ret.
    split; [|split; [exact HI|split]].
    + f_equal. destruct HI as (_ & _ & -> & _). reflexivity.
    + intros i Hi. apply HG. lia.
    + apply (wait_inv_stop _ _ _ _ _ _ _ _ _ _ HI Hstop).
Qed.

Lemma drive_wait_returns E k p self :
  exists (b : bool) (m : nat) self',
    drive_wait E k p self = Returns b self' /\
    b = (k <=? Z.of_nat m) /\
    status self' = (if given p && (0 <? m)%nat
                    then Some (progress p (k - Z.of_nat m))
                    else status self) /\
    trace self' = trace self ++ (if given p then countdown p k m else []) /\
    motor_busy self' = motor_busy self /\
    gpio_initialized self' = gpio_initialized self /\
    same_config self self'.
Proof.
  unfold drive_wait. destruct (faking_it self).
  - destruct (fake_wait_pulses_runs E k p self)
      as (n & v & s' & Hr & (_ & _ & _ & _ & Hst & Htr & Hb & Hg & Hc) & _).
    exists (k <=? Z.of_nat n), n, s'. unfold faked in *. repeat split; auto;
      apply Hc.
  - destruct (wait_pulses_runs E k p self)
      as (n & v & s' & Hr & (_ & _ & _ & _ & Hst & Htr & Hb & Hg & Hc) & _).
    exists (k <=? Z.of_nat (polled E n)), (polled E n), s'.
    repeat split; auto; apply Hc.
Qed.

(** ** C3: the contract of [wait_pulses] *)

(** C3, as stated, fails: the timeout is tested only when a poll begins, so
    a pulse whose sample is read after the timeout has elapsed still counts.
    With the constructor's 30 seconds, the samples of [late_pulse] up to
    poll 587 are read within the timeout and show no transition; poll 588
    begins before the timeout and reads its sample, the first high one,
    after it; and yet a wait for one pulse returns [True]. *)
Lemma wait_pulses_counts_a_late_sample :
  maxtime (door false 11 "closed") = 30 /\
  read_at 50 late_pulse 587 < 1000 * 30 /\
  elapsed 50 late_pulse 588 < 1000 * 30 /\
  1000 * 30 < read_at 50 late_pulse 588 /\
  transitions (sampled late_pulse 588) = 0%nat /\
  wait_pulses late_pulse 1 None (door false 11 "closed")
  = Returns true (door false 11 "closed").
Proof.
  split; [reflexivity|]. split; [vm_compute; reflexivity|].
  split; [vm_compute; reflexivity|].
  split; [vm_compute; reflexivity|]. split; vm_compute; reflexivity.
Qed.

(** C3, amended. For every target count [k], every feedback trace and every
    optional status prefix, [wait_pulses] returns, and with [n] the number
    of polls it made and [seen] the low-to-high transitions among those [n]
    samples (the first sample being a baseline only): its result is
    [k <= seen]; every poll was begun before the timeout with fewer than
    [k] pulses counted, and it stopped because [k] was reached or the time
    was up; the result is true exactly when some run of polls, all begun
    before the timeout, shows [k] transitions (the sample of the last such
    poll may be read after the timeout); the count never overshoots a
    non-negative target; when a non-empty prefix is given the status was
    set, once per counted pulse, to the prefix, a space and the decimal of
    the remaining count [k-1], [k-2], ..., [k-seen], the last of which is
    the status left behind; and without a prefix, or with an empty one,
    neither the status nor anything else the caller can see is written. *)
Theorem wait_pulses_contract (E : environment) (k : Z) (p : option string)
  (self : pimc) :
  exists (n : nat) (self' : pimc),
    let seen := transitions (sampled E n) in
    wait_pulses E k p self = Returns (k <=? Z.of_nat seen) self' /\
    (forall i, (i < n)%nat ->
       elapsed 50 E i < 1000 * maxtime self /\
       Z.of_nat (transitions (sampled E i)) < k) /\
    (k <= Z.of_nat seen \/ 1000 * maxtime self <= elapsed 50 E n) /\
    ((k <=? Z.of_nat seen) = true <->
     exists i,
       (forall j, (j < i)%nat -> elapsed 50 E j < 1000 * maxtime self) /\
       k <= Z.of_nat (transitions (sampled E i))) /\
    (0 <= k -> Z.of_nat seen <= k) /\
    (forall prefix, p = Some prefix -> prefix <> EmptyString ->
       status self' =
         (if (0 <? seen)%nat
          then Some (prefix ++ " " ++ PyStr.str (k - Z.of_nat seen))%string
          else status self) /\
       trace self' =
         trace self
         ++ map (fun j => Submit (prefix ++ " "
                                  ++ PyStr.str (k - Z.of_nat j))%string)
                (seq 1 seen)) /\
    (p = None \/ p = Some EmptyString ->
       status self' = status self /\ trace self' = trace self).
Proof.
  destruct (wait_pulses_runs E k p self)
    as (n & v & s' & Hr & HI & HG & Hstop).
  exists n, s'. unfold polled, guard_at in *. cbv zeta.
  destruct HI as (_ & _ & _ & _ & Hst & Htr & _).
  split; [exact Hr|]. split; [exact HG|]. split; [exact Hstop|].
  split; [split|split; [|split]].
  - intros Hk. apply Z.leb_le in Hk. exists n. split; auto.
    intros j Hj. apply HG, Hj.
  - intros (i & Hbefore & Hk). apply Z.leb_le.
    destruct (Nat.le_gt_cases i n) as [Hle|Hgt].
    + pose proof (transitions_sampled_mono E i n Hle). lia.
    + destruct Hstop as [?|Hto]; auto.
      specialize (Hbefore n Hgt). lia.
  - intros Hk. destruct n as [|n'].
    + rewrite transitions_sampled_0. lia.
    + destruct (HG n') as [_ Hlt]; [lia|].
      pose proof (transitions_sampled_step E n'). lia.
  - intros prefix -> Hne.
    assert (Hg : given (Some prefix) = true)
      by (destruct prefix; [congruence|reflexivity]).
    rewrite Hg in Hst, Htr. cbn [andb] in Hst. split; [exact Hst|exact Htr].
  - intros [-> | ->]; cbn [given PyStr.truthy andb] in Hst, Htr;
      rewrite app_nil_r in Htr; auto.
Qed.

Lemma wait_pulses_contract_witness :
  exists self',
    wait_pulses square_wave 3 (Some "opening") (door false 3 "closed")
    = Returns true self' /\
    status self' = Some "opening 0" /\
    trace self' =
      [GpioSetup CH1 OUT; GpioSetup CH2 OUT; GpioSetup PULSE IN;
       Submit "opening 2"; Submit "opening 1"; Submit "opening 0"].
Proof.
  destruct (wait_pulses_contract square_wave 3 (Some "opening")
              (door false 3 "closed"))
    as (n & s' & Hr & _ & _ & _ & _ & Hwith & _).
  destruct (Hwith "opening" eq_refl ltac:(discriminate)) as [Hst Htr].
  assert (Hrun : exists s0,
             wait_pulses square_wave 3 (Some "opening") (door false 3 "closed")
             = Returns true s0 /\
             status s0 = Some "opening 0" /\
             trace s0 =
               [GpioSetup CH1 OUT; GpioSetup CH2 OUT; GpioSetup PULSE IN;
                Submit "opening 2"; Submit "opening 1"; Submit "opening 0"]).
  { eexists. split; [vm_compute; reflexivity|]. split; reflexivity. }
  destruct Hrun as (s0 & Hrun & H1 & H2).
  rewrite Hrun in Hr. injection Hr as Hb <-.
  exists s0. split; [exact Hrun|]. split; [exact H1|exact H2].
Defined.

(** ** C9: the simulated wait against the physical one *)

Lemma wait_body_discards_first_sample E :
  discards_first_sample (wait_body E).
Proof.
  intros k p self. unfold wait_body.
  destruct (cleanup_returns (ready E (polls start)) self)
    as (s1 & Hcl & Hst1 & _).
  unfold bind at 1. rewrite Hcl. simpl. unfold ret.
  eexists _, s1. repeat split; auto.
Qed.



(** ** Opening and closing *)

Lemma bind_returns {A B} (m : M A) (f : A -> M B) self a self' :
  m self = Returns a self' -> (x <- m ;; f x) self = f a self'.
Proof. intros H. unfold bind. now rewrite H. Qed.

Lemma open_unfold E pulses resuming self :
  open E pulses resuming self =
  if negb resuming && negb (status_is "closed" self)
  then Returns (Some false) self
  else travel E forward "opening" "open" "failed opening"
         (match pulses with None => open_pulses self | Some p => p end)
         resuming self.
Proof. reflexivity. Qed.

Lemma close_unfold E pulses resuming self :
  close E pulses resuming self =
  if negb resuming && negb (status_is "open" self)
  then Returns (Some false) self
  else travel E reverse "closing" "closed" "failed closing"
         (match pulses with None => close_pulses self | Some p => p end)
         resuming self.
Proof. reflexivity. Qed.

Lemma travel_runs E (drive : M bool) lead word done failed k resuming self :
  PyStr.truthy word = true ->
  (exists s1,
     drive self = Returns true s1 /\
     motor_busy s1 = false /\ journal_futures s1 = [] /\
     gpio_initialized s1 = true /\ status s1 = status self /\
     journal_file s1 = drained_file self /\
     trace s1 = trace self ++ setup_events self ++ stop_events
                ++ (if faking_it self then [] else [GpioOutput lead 0]) /\
     same_config self s1) ->
  exists (m : nat) self',
    let terminal := if k <=? Z.of_nat m then done else failed in
    travel E drive word done failed k resuming self = Returns None self' /\
    status self' = Some terminal /\
    journal_file self' = Some terminal /\
    journal_futures self' = [] /\
    motor_busy self' = false /\
    trace self' =
      trace self ++ travel_events self lead word resuming k m terminal /\
    same_config self self'.
Proof.
  intros Hword (s1 & Hd & Hb1 & Hf1 & Hg1 & Hst1 & Hj1 & Ht1 & Hc1).
  unfold travel. rewrite (bind_returns _ _ _ _ _ Hd). cbn [negb].
  assert (Hup : exists s2,
            (if negb resuming then update_status word true else ret tt) s1
            = Returns tt s2 /\
            trace s2 = trace s1 ++ (if resuming then [] else [Submit word]) /\
            motor_busy s2 = false /\ gpio_initialized s2 = true /\
            same_config s1 s2).
  { destruct resuming; cbn [negb].
    - exists s1. rewrite app_nil_r. repeat split; auto.
    - destruct (update_status_async word s1)
        as (s2 & Hu & _ & _ & Ht2 & _ & Hb2 & Hg2 & Hc2).
      exists s2. repeat split; try apply Hc2; auto; congruence. }
  destruct Hup as (s2 & Hu & Ht2 & Hb2 & Hg2 & Hc2).
  rewrite (bind_returns _ _ _ _ _ Hu).
  destruct (drive_wait_returns E k (Some word) s2)
    as (b & m & s3 & Hw & Hbm & _ & Ht3 & Hb3 & Hg3 & Hc3).
  rewrite (bind_returns _ _ _ _ _ Hw).
  destruct (stop_and_housekeeping_returns s3)
    as (s4 & Hs & Hb4 & Hf4 & Hg4 & _ & _ & Ht4 & Hc4).
  rewrite (bind_returns _ _ _ _ _ Hs).
  exists m. cbv zeta. rewrite <- Hbm.
  destruct (update_status_sync (if b then done else failed) s4)
    as (s5 & Hu5 & Hst5 & Hj5 & Hf5 & Ht5 & Hb5 & _ & Hc5).
  exists s5. split.
  { destruct b; rewrite (bind_returns _ _ _ _ _ Hu5); reflexivity. }
  repeat split; try congruence.
  1: { rewrite Ht5, Ht4, Ht3, Ht2, Ht1. unfold travel_events, setup_events.
       rewrite Hg3, Hg2. unfold given. rewrite Hword. cbn [app].
       rewrite <- !app_assoc. reflexivity. }
  all: destruct Hc1 as (?&?&?&?&?), Hc2 as (?&?&?&?&?), Hc3 as (?&?&?&?&?),
                Hc4 as (?&?&?&?&?), Hc5 as (?&?&?&?&?); congruence.
Qed.

Lemma status_is_true s self :
  status self = Some s -> status_is s self = true.
Proof. intros H. unfold status_is. rewrite H. apply String.eqb_refl. Qed.

Lemma status_is_false s self :
  status self <> Some s -> status_is s self = false.
Proof.
  intros H. unfold status_is. destruct (status self) as [s'|]; auto.
  apply String.eqb_neq. congruence.
Qed.

Lemma passes_precondition s resuming self :
  resuming = true \/ status self = Some s ->
  negb resuming && negb (status_is s self) = false.
Proof.
  intros [->|H]; [reflexivity|].
  rewrite (status_is_true _ _ H). apply andb_false_r.
Qed.

(** An [open] that starts on an idle motor runs to its end. *)
Lemma open_runs E pulses resuming self :
  motor_busy self = false ->
  resuming = true \/ status self = Some "closed" ->
  exists (m : nat) self',
    let k := match pulses with None => open_pulses self | Some p => p end in
    let terminal :=
      if k <=? Z.of_nat m then "open" else "failed opening" in
    open E pulses resuming self = Returns None self' /\
    status self' = Some terminal /\
    journal_file self' = Some terminal /\
    journal_futures self' = [] /\
    motor_busy self' = false /\
    trace self' =
      trace self ++ travel_events self CH1 "opening" resuming k m terminal /\
    same_config self self'.
Proof.
  intros Hidle Hpre. rewrite open_unfold, (passes_precondition _ _ _ Hpre).
  apply travel_runs; [reflexivity|]. apply forward_idle, Hidle.
Qed.

(** A [close] that starts on an idle motor runs to its end. *)
Lemma close_runs E pulses resuming self :
  motor_busy self = false ->
  resuming = true \/ status self = Some "open" ->
  exists (m : nat) self',
    let k := match pulses with None => close_pulses self | Some p => p end in
    let terminal :=
      if k <=? Z.of_nat m then "closed" else "failed closing" in
    close E pulses resuming self = Returns None self' /\
    status self' = Some terminal /\
    journal_file self' = Some terminal /\
    journal_futures self' = [] /\
    motor_busy self' = false /\
    trace self' =
      trace self ++ travel_events self CH2 "closing" resuming k m terminal /\
    same_config self self'.
Proof.
  intros Hidle Hpre. rewrite close_unfold, (passes_precondition _ _ _ Hpre).
  apply travel_runs; [reflexivity|]. apply reverse_idle, Hidle.
Qed.

(** ** C4: the motor is always stopped and the outcome always recorded *)

(** C4. Every [open] and every [close] that gets past its precondition on an
    idle motor, and so reaches the pulse wait, returns; whatever the wait
    gave, the calls it made end with both leads set high (after the last
    status update of the wait) followed by one write of the journal by the
    caller itself; on return no journal future is outstanding, the busy flag
    is clear, and the status and the journal file both hold the terminal
    word: [open]/[closed] when the target was reached ([k <= m], with [m]
    the pulses counted) and [failed opening]/[failed closing] when the time
    ran out. *)
Theorem travel_always_stops_and_records (E : environment)
  (pulses : option Z) (resuming : bool) (self : pimc) :
  motor_busy self = false ->
  (resuming = true \/ status self = Some "closed" ->
   exists (m : nat) self',
     let k := match pulses with None => open_pulses self | Some p => p end in
     let terminal :=
       if k <=? Z.of_nat m then "open" else "failed opening" in
     open E pulses resuming self = Returns None self' /\
     status self' = Some terminal /\
     journal_file self' = Some terminal /\
     journal_futures self' = [] /\
     motor_busy self' = false /\
     trace self' =
       trace self ++ setup_events self ++ stop_events
       ++ (if faking_it self then [] else [GpioOutput CH1 0])
       ++ (if resuming then [] else [Submit "opening"])
       ++ countdown (Some "opening") k m
       ++ stop_events ++ [WriteJournal terminal]) /\
  (resuming = true \/ status self = Some "open" ->
   exists (m : nat) self',
     let k := match pulses with None => close_pulses self | Some p => p end in
     let terminal :=
       if k <=? Z.of_nat m then "closed" else "failed closing" in
     close E pulses resuming self = Returns None self' /\
     status self' = Some terminal /\
     journal_file self' = Some terminal /\
     journal_futures self' = [] /\
     motor_busy self' = false /\
     trace self' =
       trace self ++ setup_events self ++ stop_events
       ++ (if faking_it self then [] else [GpioOutput CH2 0])
       ++ (if resuming then [] else [Submit "closing"])
       ++ countdown (Some "closing") k m
       ++ stop_events ++ [WriteJournal terminal]).
Proof.
  intros Hidle. split; intros Hpre.
  - destruct (open_runs E pulses resuming self Hidle Hpre)
      as (m & s' & H1 & H2 & H3 & H4 & H5 & H6 & _).
    exists m, s'. repeat split; auto.
  - destruct (close_runs E pulses resuming self Hidle Hpre)
      as (m & s' & H1 & H2 & H3 & H4 & H5 & H6 & _).
    exists m, s'. repeat split; auto.
Qed.

Lemma travel_always_stops_and_records_witness :
  motor_busy (door false 3 "opening 2") = false /\
  (exists self',
     open stalled (Some 2) true
       (door false 3 "opening 2")
     = Returns None self' /\
     status self' = Some "failed opening" /\
     journal_file self' = Some "failed opening") /\
  (exists self',
     close square_wave (Some 2) true
       (door false 3 "opening 2")
     = Returns None self' /\
     status self' = Some "closed" /\
     journal_file self' = Some "closed").
Proof.
  split; [reflexivity|]. split.
  - destruct (travel_always_stops_and_records stalled (Some 2) true
                (door false 3 "opening 2")
                eq_refl) as [Ho _].
    destruct (Ho (or_introl eq_refl))
      as (m & s' & Hr & Hst & Hj & _).
    exists s'. split; [exact Hr|].
    assert (Hm : (2 <=? Z.of_nat m) = false).
    { vm_compute in Hr. inversion Hr; subst s'. clear Hr.
      destruct (2 <=? Z.of_nat m); [discriminate Hst|reflexivity]. }
    rewrite Hm in Hst, Hj. split; assumption.
  - destruct (travel_always_stops_and_records square_wave (Some 2) true
                (door false 3 "opening 2")
                eq_refl) as [_ Hc].
    destruct (Hc (or_introl eq_refl))
      as (m & s' & Hr & Hst & Hj & _).
    exists s'. split; [exact Hr|].
    assert (Hm : (2 <=? Z.of_nat m) = true).
    { vm_compute in Hr. inversion Hr; subst s'. clear Hr.
      destruct (2 <=? Z.of_nat m); [reflexivity|discriminate Hst]. }
    rewrite Hm in Hst, Hj. split; assumption.
Defined.

(** The two scenarios of the specification, on freshly built controllers:
    three pulses delivered in time end in [open]; a feedback that stalls
    after two of five pulses ends in [failed closing]. *)
Example scenario_open :
  exists self',
    open square_wave None false (door false 3 "closed") = Returns None self' /\
    status self' = Some "open" /\ journal_file self' = Some "open" /\
    trace self' =
      [GpioSetup CH1 OUT; GpioSetup CH2 OUT; GpioSetup PULSE IN;
       GpioOutput CH1 1; GpioOutput CH2 1; GpioOutput CH1 0;
       Submit "opening"; Submit "opening 2"; Submit "opening 1";
       Submit "opening 0";
       GpioOutput CH1 1; GpioOutput CH2 1; WriteJournal "open"].
Proof.
  eexists. split; [vm_compute; reflexivity|].
  split; [reflexivity|]. split; reflexivity.
Qed.

Example scenario_close_stalls :
  exists self',
    close (stalling 2) None false (door false 5 "open")
    = Returns None self' /\
    status self' = Some "failed closing" /\
    journal_file self' = Some "failed closing" /\
    trace self' =
      [GpioSetup CH1 OUT; GpioSetup CH2 OUT; GpioSetup PULSE IN;
       GpioOutput CH1 1; GpioOutput CH2 1; GpioOutput CH2 0;
       Submit "closing"; Submit "closing 4"; Submit "closing 3";
       GpioOutput CH1 1; GpioOutput CH2 1; WriteJournal "failed closing"].
Proof.
  eexists. split; [vm_compute; reflexivity|].
  split; [reflexivity|]. split; reflexivity.
Qed.

(** ** C6: an operation invoked from the wrong state is rejected *)

(** C6. A non-resuming [open] whose status is not [closed], and a
    non-resuming [close] whose status is not [open], returns [False] and
    leaves the whole object and its surroundings as they were: the status in
    memory, the journal file, the outstanding futures and the trace of calls
    are unchanged. *)
Theorem wrong_state_is_rejected (E : environment) (pulses : option Z)
  (self : pimc) :
  (status self <> Some "closed" ->
   open E pulses false self = Returns (Some false) self) /\
  (status self <> Some "open" ->
   close E pulses false self = Returns (Some false) self).
Proof.
  split; intros H.
  - rewrite open_unfold, (status_is_false _ _ H). reflexivity.
  - rewrite close_unfold, (status_is_false _ _ H). reflexivity.
Qed.

Lemma wrong_state_is_rejected_witness :
  status (door false 11 "failed opening")
  <> Some "closed" /\
  status (door false 11 "failed opening")
  <> Some "open" /\
  open square_wave None false
    (door false 11 "failed opening")
  = Returns (Some false)
      (door false 11 "failed opening") /\
  close square_wave None false
    (door false 11 "failed opening")
  = Returns (Some false)
      (door false 11 "failed opening").
Proof.
  assert (H1 : status (door false 11 "failed opening") <> Some "closed")
    by discriminate.
  assert (H2 : status (door false 11 "failed opening") <> Some "open")
    by discriminate.
  split; [exact H1|]. split; [exact H2|]. split.
  - exact (proj1 (wrong_state_is_rejected square_wave None _) H1).
  - exact (proj2 (wrong_state_is_rejected square_wave None _) H2).
Defined.

(** ** C1: the busy flag during a travel *)

(** C1 (what the code does). [forward] sets the busy flag and then calls
    [stop_and_housekeeping], which clears it again, so the flag is already
    clear when the pulse wait of an [open] begins.  A second operation that
    starts at that moment, such as the [reverse] of a resuming [close], is
    not turned away: it returns [True] and writes to the output leads. *)
Theorem busy_flag_clear_during_wait (self : pimc) :
  motor_busy self = false ->
  exists s1 s2 s3,
    forward self = Returns true s1 /\
    update_status "opening" true s1 = Returns tt s2 /\
    motor_busy s2 = false /\
    reverse s2 = Returns true s3 /\
    trace s3 = trace s2 ++ stop_events
               ++ (if faking_it self then [] else [GpioOutput CH2 0]).
Proof.
  intros Hidle.
  destruct (forward_idle self Hidle)
    as (s1 & Hf & Hb1 & _ & Hg1 & _ & _ & _ & Hc1).
  destruct (update_status_async "opening" s1)
    as (s2 & Hu & _ & _ & _ & _ & Hb2 & Hg2 & Hc2).
  assert (Hidle2 : motor_busy s2 = false) by congruence.
  destruct (reverse_idle s2 Hidle2)
    as (s3 & Hr & _ & _ & _ & _ & _ & Ht3 & _).
  exists s1, s2, s3. repeat split; auto.
  rewrite Ht3. unfold setup_events. rewrite Hg2, Hg1. simpl.
  destruct Hc1 as (_ & <- & _), Hc2 as (_ & <- & _). reflexivity.
Qed.

Lemma busy_flag_clear_during_wait_witness :
  motor_busy (door false 11 "closed") = false /\
  exists s2 s3,
    (forward ;; update_status "opening" true) (door false 11 "closed")
    = Returns tt s2 /\
    motor_busy s2 = false /\
    reverse s2 = Returns true s3 /\
    trace s3 = trace s2 ++ [GpioOutput CH1 1; GpioOutput CH2 1; GpioOutput CH2 0].
Proof.
  split; [reflexivity|].
  destruct (busy_flag_clear_during_wait (door false 11 "closed") eq_refl)
    as (s1 & s2 & s3 & Hf & Hu & Hb & Hr & Ht).
  exists s2, s3. repeat split; auto.
  unfold bind. rewrite Hf. exact Hu.
Defined.

(** ** C7: the status written before the wait *)

(** C7, as stated, fails: an [open] of 11 pulses from [closed] never writes
    [opening 11].  The status it sets before the wait is the bare word
    [opening], and over a whole successful travel the first count to appear
    is [opening 10], after the first pulse. *)
Lemma open_never_writes_full_count :
  (exists s,
     (forward ;; update_status "opening" true) (door false 11 "closed")
     = Returns tt s /\
     status s = Some "opening" /\
     status s <> Some ("opening " ++ PyStr.str 11)%string) /\
  (exists s',
     open square_wave None false (door false 11 "closed") = Returns None s' /\
     firstn 8 (trace s') =
       [GpioSetup CH1 OUT; GpioSetup CH2 OUT; GpioSetup PULSE IN;
        GpioOutput CH1 1; GpioOutput CH2 1; GpioOutput CH1 0;
        Submit "opening"; Submit "opening 10"] /\
     ~ In (Submit "opening 11") (trace s') /\
     ~ In (WriteJournal "opening 11") (trace s')).
Proof.
  split.
  - eexists. split; [vm_compute; reflexivity|].
    split; [reflexivity|discriminate].
  - eexists. split; [vm_compute; reflexivity|].
    split; [reflexivity|].
    split; intros H; cbv [trace In] in H;
      repeat (destruct H as [H|H]; [discriminate H|]); exact H.
Qed.

(** C7, amended. A non-resuming [open] (or [close]) that passes its
    precondition on an idle motor sets the status to the bare in-progress
    word, [opening] (or [closing]), with no count, through the background
    path: one future is submitted and the journal file is not written by the
    caller; only then does the pulse wait start, and the first counted pulse
    appends the remaining count. *)
Theorem in_progress_word_before_wait (E : environment) (pulses : option Z)
  (self : pimc) :
  motor_busy self = false ->
  (status self = Some "closed" ->
   exists s1 s2,
     forward self = Returns true s1 /\
     update_status "opening" true s1 = Returns tt s2 /\
     status s2 = Some "opening" /\
     journal_futures s2 = ["opening"] /\
     trace s2 = trace s1 ++ [Submit "opening"] /\
     open E pulses false self =
       (result <- drive_wait E
                    (match pulses with None => open_pulses self | Some p => p end)
                    (Some "opening") ;;
        stop_and_housekeeping ;;
        (if result : bool
         then update_status "open" false
         else update_status "failed opening" false) ;;
        ret None) s2) /\
  (status self = Some "open" ->
   exists s1 s2,
     reverse self = Returns true s1 /\
     update_status "closing" true s1 = Returns tt s2 /\
     status s2 = Some "closing" /\
     journal_futures s2 = ["closing"] /\
     trace s2 = trace s1 ++ [Submit "closing"] /\
     close E pulses false self =
       (result <- drive_wait E
                    (match pulses with None => close_pulses self | Some p => p end)
                    (Some "closing") ;;
        stop_and_housekeeping ;;
        (if result : bool
         then update_status "closed" false
         else update_status "failed closing" false) ;;
        ret None) s2).
Proof.
  intros Hidle. split; intros Hst.
  - destruct (forward_idle self Hidle) as (s1 & Hf & _ & Hf1 & _).
    destruct (update_status_async "opening" s1)
      as (s2 & Hu & Hst2 & Hfu2 & Ht2 & _).
    exists s1, s2. rewrite Hf1 in Hfu2. repeat split; auto.
    rewrite open_unfold, (status_is_true _ _ Hst). cbn [negb andb].
    unfold travel. rewrite (bind_returns _ _ _ _ _ Hf). cbn [negb].
    rewrite (bind_returns _ _ _ _ _ Hu). reflexivity.
  - destruct (reverse_idle self Hidle) as (s1 & Hf & _ & Hf1 & _).
    destruct (update_status_async "closing" s1)
      as (s2 & Hu & Hst2 & Hfu2 & Ht2 & _).
    exists s1, s2. rewrite Hf1 in Hfu2. repeat split; auto.
    rewrite close_unfold, (status_is_true _ _ Hst). cbn [negb andb].
    unfold travel. rewrite (bind_returns _ _ _ _ _ Hf). cbn [negb].
    rewrite (bind_returns _ _ _ _ _ Hu). reflexivity.
Qed.

Lemma in_progress_word_before_wait_witness :
  motor_busy (door false 11 "closed") = false /\
  status (door false 11 "closed") = Some "closed" /\
  motor_busy (door true 11 "open") = false /\
  status (door true 11 "open") = Some "open" /\
  (exists s2,
     (forward ;; update_status "opening" true) (door false 11 "closed")
     = Returns tt s2 /\ status s2 = Some "opening") /\
  (exists s2,
     (reverse ;; update_status "closing" true)
       (door true 11 "open")
     = Returns tt s2 /\ status s2 = Some "closing").
Proof.
  repeat (split; [reflexivity|]). split.
  - destruct (proj1 (in_progress_word_before_wait square_wave None
                       (door false 11 "closed") eq_refl) eq_refl)
      as (s1 & s2 & Hf & Hu & Hst & _).
    exists s2. split; [|exact Hst]. unfold bind. rewrite Hf. exact Hu.
  - destruct (proj2 (in_progress_word_before_wait square_wave None
                       (door true 11 "open")
                       eq_refl) eq_refl)
      as (s1 & s2 & Hf & Hu & Hst & _).
    exists s2. split; [|exact Hst]. unfold bind. rewrite Hf. exact Hu.
Defined.

(** ** Resuming *)

Lemma final_then_ret {A B} (m : M A) (b : B) self :
  final ((m ;; ret b) self) = final (m self).
Proof. unfold bind, ret. destruct (m self); reflexivity. Qed.

Lemma resume_tokens E self s word token rest :
  status self = Some s ->
  PyStr.split s = word :: token :: rest ->
  resume E self =
  match (if String.eqb word "opening" || String.eqb word "closing"
         then option_map Some (PyStr.int token) else Some None) with
  | None => Returns false self
  | Some remaining_pulses =>
      if String.eqb word "opening"
      then (open E remaining_pulses true ;; ret true) self
      else if String.eqb word "closing"
      then (close E remaining_pulses true ;; ret true) self
      else Returns false self
  end.
Proof.
  intros Hst Hsp. unfold resume. rewrite Hst, Hsp.
  change (1 <? List.length (word :: token :: rest))%nat with true.
  rewrite andb_true_r. reflexivity.
Qed.

Lemma resume_opening E self n :
  status self = Some ("opening " ++ PyStr.str n)%string ->
  resume E self = (open E (Some n) true ;; ret true) self.
Proof.
  intros Hst. destruct (str_word n) as [Hne Hns].
  rewrite (resume_tokens E self _ "opening" (PyStr.str n) [] Hst).
  - rewrite int_str. reflexivity.
  - apply (split_in_progress "opening"); auto. discriminate.
Qed.

Lemma resume_closing E self n :
  status self = Some ("closing " ++ PyStr.str n)%string ->
  resume E self = (close E (Some n) true ;; ret true) self.
Proof.
  intros Hst. destruct (str_word n) as [Hne Hns].
  rewrite (resume_tokens E self _ "closing" (PyStr.str n) [] Hst).
  - rewrite int_str. reflexivity.
  - apply (split_in_progress "closing"); auto. discriminate.
Qed.

Lemma resume_malformed E self s word token rest :
  status self = Some s ->
  PyStr.split s = word :: token :: rest ->
  word = "opening" \/ word = "closing" ->
  PyStr.int token = None ->
  resume E self = Returns false self.
Proof.
  intros Hst Hsp Hw Hint.
  rewrite (resume_tokens E self s word token rest Hst Hsp), Hint.
  destruct Hw as [-> | ->]; reflexivity.
Qed.

(** ** C5: a resumed travel counts from the journal *)

(** C5. When the status is [opening <n>] (or [closing <n>]), with [<n>] the
    decimal of an integer [n], [resume] calls [open] (or [close]) with
    [pulses = n] and [resuming = True] and then returns [True]; on an idle
    motor that call waits for [n] pulses, whatever [open_pulses] and
    [close_pulses] are: its status updates count down from [n - 1] and it
    succeeds exactly when [n] pulses are counted.  When the status starts
    with [opening] or [closing] and its second token is not an integer,
    [resume] returns [False] and changes nothing: no call is made to the
    leads, the executor or the journal. *)
Theorem resume_counts_from_journal (E : environment) (self : pimc) :
  (forall n,
     status self = Some ("opening " ++ PyStr.str n)%string ->
     resume E self = (open E (Some n) true ;; ret true) self /\
     (motor_busy self = false ->
      exists (m : nat) self',
        let terminal := if n <=? Z.of_nat m then "open" else "failed opening" in
        resume E self = Returns true self' /\
        status self' = Some terminal /\
        trace self' =
          trace self ++ setup_events self ++ stop_events
          ++ (if faking_it self then [] else [GpioOutput CH1 0])
          ++ countdown (Some "opening") n m
          ++ stop_events ++ [WriteJournal terminal])) /\
  (forall n,
     status self = Some ("closing " ++ PyStr.str n)%string ->
     resume E self = (close E (Some n) true ;; ret true) self /\
     (motor_busy self = false ->
      exists (m : nat) self',
        let terminal := if n <=? Z.of_nat m then "closed" else "failed closing" in
        resume E self = Returns true self' /\
        status self' = Some terminal /\
        trace self' =
          trace self ++ setup_events self ++ stop_events
          ++ (if faking_it self then [] else [GpioOutput CH2 0])
          ++ countdown (Some "closing") n m
          ++ stop_events ++ [WriteJournal terminal])) /\
  (forall s word token rest,
     status self = Some s ->
     PyStr.split s = word :: token :: rest ->
     word = "opening" \/ word = "closing" ->
     PyStr.int token = None ->
     resume E self = Returns false self).
Proof.
  split; [|split].
  - intros n Hst. split; [apply resume_opening, Hst|]. intros Hidle.
    destruct (open_runs E (Some n) true self Hidle (or_introl eq_refl))
      as (m & s' & Hr & Hst' & _ & _ & _ & Ht & _).
    exists m, s'. cbv zeta in *. rewrite (resume_opening E self n Hst).
    rewrite (bind_returns _ _ _ _ _ Hr). repeat split; auto.
  - intros n Hst. split; [apply resume_closing, Hst|]. intros Hidle.
    destruct (close_runs E (Some n) true self Hidle (or_introl eq_refl))
      as (m & s' & Hr & Hst' & _ & _ & _ & Ht & _).
    exists m, s'. cbv zeta in *. rewrite (resume_closing E self n Hst).
    rewrite (bind_returns _ _ _ _ _ Hr). repeat split; auto.
  - intros s word token rest. apply resume_malformed.
Qed.

Lemma resume_counts_from_journal_witness :
  (exists self',
     resume square_wave (door false 11 "opening 3")
     = Returns true self' /\
     trace self' =
       [GpioSetup CH1 OUT; GpioSetup CH2 OUT; GpioSetup PULSE IN;
        GpioOutput CH1 1; GpioOutput CH2 1; GpioOutput CH1 0;
        Submit "opening 2"; Submit "opening 1"; Submit "opening 0";
        GpioOutput CH1 1; GpioOutput CH2 1; WriteJournal "open"]) /\
  (exists self',
     resume square_wave (door false 11 "closing 2")
     = Returns true self' /\
     status self' = Some "closed") /\
  resume square_wave (door false 11 "opening x7")
  = Returns false (door false 11 "opening x7").
Proof.
  split; [|split].
  - destruct (resume_counts_from_journal square_wave
                (door false 11 "opening 3"))
      as (Ho & _ & _).
    destruct (Ho 3 eq_refl) as [_ Hrun].
    destruct (Hrun eq_refl) as (m & s' & Hr & _ & _).
    exists s'. split; [exact Hr|].
    vm_compute in Hr. inversion Hr. reflexivity.
  - destruct (resume_counts_from_journal square_wave
                (door false 11 "closing 2"))
      as (_ & Hc & _).
    destruct (Hc 2 eq_refl) as [_ Hrun].
    destruct (Hrun eq_refl) as (m & s' & Hr & _ & _).
    exists s'. split; [exact Hr|].
    vm_compute in Hr. inversion Hr. reflexivity.
  - destruct (resume_counts_from_journal square_wave
                (door false 11 "opening x7"))
      as (_ & _ & Hbad).
    apply (Hbad "opening x7" "opening" "x7" []);
      [reflexivity|reflexivity|left; reflexivity|reflexivity].
Defined.

(** ** C10: what the result of [resume] reports *)

(** C10. When the status is [opening <n>] or [closing <n>] with an integer
    [n] and the motor is idle, [resume] returns [True] whether the resumed
    travel reached its target or ran into the timeout: with [m] the pulses
    counted, the status left behind is [open]/[closed] if [n <= m] and
    [failed opening]/[failed closing] otherwise, and the result is [True]
    in both cases. *)
Theorem resume_true_whatever_outcome (E : environment) (self : pimc) (n : Z) :
  motor_busy self = false ->
  (status self = Some ("opening " ++ PyStr.str n)%string ->
   exists (m : nat) self',
     resume E self = Returns true self' /\
     status self' =
       Some (if n <=? Z.of_nat m then "open" else "failed opening") /\
     journal_file self' = status self') /\
  (status self = Some ("closing " ++ PyStr.str n)%string ->
   exists (m : nat) self',
     resume E self = Returns true self' /\
     status self' =
       Some (if n <=? Z.of_nat m then "closed" else "failed closing") /\
     journal_file self' = status self').
Proof.
  intros Hidle. split; intros Hst.
  - destruct (open_runs E (Some n) true self Hidle (or_introl eq_refl))
      as (m & s' & Hr & Hst' & Hj & _).
    exists m, s'. cbv zeta in *. rewrite (resume_opening E self n Hst).
    rewrite (bind_returns _ _ _ _ _ Hr). repeat split; congruence.
  - destruct (close_runs E (Some n) true self Hidle (or_introl eq_refl))
      as (m & s' & Hr & Hst' & Hj & _).
    exists m, s'. cbv zeta in *. rewrite (resume_closing E self n Hst).
    rewrite (bind_returns _ _ _ _ _ Hr). repeat split; congruence.
Qed.

Lemma resume_true_whatever_outcome_witness :
  motor_busy (door false 11 "opening 3") = false /\
  (exists self',
     resume stalled (door false 11 "opening 3")
     = Returns true self' /\
     status self' = Some "failed opening") /\
  (exists self',
     resume stalled (door false 11 "closing 3")
     = Returns true self' /\
     status self' = Some "failed closing").
Proof.
  split; [reflexivity|]. split.
  - destruct (proj1 (resume_true_whatever_outcome stalled
                       (door false 11 "opening 3")
                       3 eq_refl) eq_refl)
      as (m & s' & Hr & _).
    exists s'. split; [exact Hr|].
    vm_compute in Hr. inversion Hr. reflexivity.
  - destruct (proj2 (resume_true_whatever_outcome stalled
                       (door false 11 "closing 3")
                       3 eq_refl) eq_refl)
      as (m & s' & Hr & _).
    exists s'. split; [exact Hr|].
    vm_compute in Hr. inversion Hr. reflexivity.
Defined.

(** ** The constructor *)

Lemma init_unfold E a file :
  __init__ E a file =
  let self := constructed a file in
  match loaded file with
  | Some s =>
      if arg_resume a && PyStr.truthy s then
        match PyStr.split s with
        | [] => Raises IndexError self
        | word :: _ =>
            if String.eqb word "open" || String.eqb word "closed"
            then Returns tt self
            else (resume E ;; ret tt) self
        end
      else Returns tt self
  | None => Returns tt self
  end.
Proof.
  unfold __init__, constructed, loaded, load_journal, gpio_setup.
  unfold_monad. cbn.
  destruct file as [content|]; cbn.
  - destruct (PyStr.truthy (PyStr.strip content)); cbn;
      destruct (arg_fake_it a); reflexivity.
  - destruct (arg_fake_it a); reflexivity.
Qed.

(** [door] is what the constructor returns. *)
Lemma door_is_built E fake pulses journal :
  __init__ E (defaults fake pulses) (Some journal)
  = Returns tt (door fake pulses journal).
Proof.
  rewrite init_unfold. cbv zeta. unfold door.
  destruct (loaded (Some journal)); reflexivity.
Qed.

Lemma open_config E pulses resuming self self' :
  final (open E pulses resuming self) = Some self' -> same_config self self'.
Proof.
  rewrite open_unfold.
  destruct (negb resuming && negb (status_is "closed" self)).
  - intros [= <-]. apply same_config_refl.
  - destruct (motor_busy self) eqn:Hb.
    + unfold travel. rewrite (bind_returns _ _ _ _ _ (forward_busy self Hb)).
      intros [= <-]. apply same_config_refl.
    + destruct (travel_runs E forward CH1 "opening" "open" "failed opening"
                  (match pulses with None => open_pulses self | Some p => p end)
                  resuming self eq_refl (forward_idle self Hb))
        as (m & s' & Hr & _ & _ & _ & _ & _ & Hc).
      rewrite Hr. intros [= <-]. exact Hc.
Qed.

Lemma close_config E pulses resuming self self' :
  final (close E pulses resuming self) = Some self' -> same_config self self'.
Proof.
  rewrite close_unfold.
  destruct (negb resuming && negb (status_is "open" self)).
  - intros [= <-]. apply same_config_refl.
  - destruct (motor_busy self) eqn:Hb.
    + unfold travel. rewrite (bind_returns _ _ _ _ _ (reverse_busy self Hb)).
      intros [= <-]. apply same_config_refl.
    + destruct (travel_runs E reverse CH2 "closing" "closed" "failed closing"
                  (match pulses with None => close_pulses self | Some p => p end)
                  resuming self eq_refl (reverse_idle self Hb))
        as (m & s' & Hr & _ & _ & _ & _ & _ & Hc).
      rewrite Hr. intros [= <-]. exact Hc.
Qed.

Lemma resume_config E self self' :
  final (resume E self) = Some self' -> same_config self self'.
Proof.
  unfold resume. destruct (status self) as [s|].
  2: { intros [= <-]. apply same_config_refl. }
  destruct (PyStr.split s) as [|word rest'].
  { intros [= <-]. apply same_config_refl. }
  destruct (if (String.eqb word "opening" || String.eqb word "closing")
               && (1 <? List.length (word :: rest'))%nat
            then option_map Some (PyStr.int (nth 1 (word :: rest') ""))
            else Some None) as [remaining|].
  2: { intros [= <-]. apply same_config_refl. }
  destruct (String.eqb word "opening").
  { rewrite final_then_ret. apply open_config. }
  destruct (String.eqb word "closing").
  { rewrite final_then_ret. apply close_config. }
  intros [= <-]. apply same_config_refl.
Qed.

(** ** C2: the timeout the constructor stores *)

(** C2 (what the code does). Whatever [maxtime] the constructor is given,
    and whatever the journal holds, the object it builds has
    [self.maxtime = 30]: the argument is never read, and nothing changes the
    attribute afterwards.  Both wait loops time out against that
    attribute. *)
Theorem constructor_ignores_maxtime (E : environment) (a : arguments)
  (file : option string) (self : pimc) :
  final (__init__ E a file) = Some self ->
  maxtime self = 30 /\
  (forall pulses v,
     running pulses v self = (clock v <? 30000) && (pulses_seen v <? pulses)).
Proof.
  intros H.
  assert (Hc : same_config (constructed a file) self).
  { rewrite init_unfold in H. cbv zeta in H.
    destruct (loaded file) as [s|]; [|injection H as <-; apply same_config_refl].
    destruct (arg_resume a && PyStr.truthy s);
      [|injection H as <-; apply same_config_refl].
    destruct (PyStr.split s) as [|word rest];
      [injection H as <-; apply same_config_refl|].
    destruct (String.eqb word "open" || String.eqb word "closed");
      [injection H as <-; apply same_config_refl|].
    rewrite final_then_ret in H. apply (resume_config E _ _ H). }
  destruct Hc as (_ & _ & _ & _ & Hmax). simpl in Hmax.
  split; [exact Hmax|]. intros pulses v. unfold running. now rewrite Hmax.
Qed.

Lemma constructor_ignores_maxtime_witness :
  arg_maxtime (ten_seconds true) = 10 /\
  exists self,
    final (__init__ stalled (ten_seconds true) (Some "opening 4")) = Some self /\
    maxtime self = 30 /\ status self = Some "failed opening".
Proof.
  split; [reflexivity|].
  assert (Hrun : exists self,
             final (__init__ stalled (ten_seconds true) (Some "opening 4"))
             = Some self /\ status self = Some "failed opening").
  { eexists. split; vm_compute; reflexivity. }
  destruct Hrun as (self & Hf & Hst).
  exists self. split; [exact Hf|]. split; [|exact Hst].
  exact (proj1 (constructor_ignores_maxtime stalled (ten_seconds true)
                  (Some "opening 4") self Hf)).
Defined.

(** ** C8: loading the journal *)

(** C8, as stated, fails: [load_journal] does not return the contents of a
    non-empty file as they are.  A file holding [closed] and a newline gives
    the status [closed], and a file holding a single space, which is not
    empty, gives no status at all. *)
Lemma load_journal_strips :
  ("closed" ++ newline)%string <> EmptyString /\
  load_journal
    (door false 11 ("closed" ++ newline)%string)
  = Returns (Some "closed")
      (door false 11 ("closed" ++ newline)%string) /\
  Some "closed" <> Some ("closed" ++ newline)%string /\
  " " <> EmptyString /\
  load_journal (door false 11 " ")
  = Returns None (door false 11 " ").
Proof.
  repeat split; try discriminate.
Qed.

(** C8, amended. When the journal file is missing, empty, or holds nothing
    but whitespace, [load_journal] returns [None]; the constructor then
    finishes with the status [None] and has not touched the output leads nor
    the file, and from that object every non-resuming [open] and [close] is
    turned away with the object unchanged, while [resume] raises without
    acting: the file is not read again and the motor is not driven.
    Otherwise [load_journal] returns the contents stripped of leading and
    trailing whitespace. *)
Theorem journal_load_contract (E : environment) (a : arguments)
  (file : option string) :
  ((file = None \/ exists c, file = Some c /\ PyStr.strip c = EmptyString) ->
   (forall self, journal_file self = file ->
                 load_journal self = Returns None self) /\
   exists self,
     __init__ E a file = Returns tt self /\
     status self = None /\
     journal_file self = file /\
     (forall pin value, ~ In (GpioOutput pin value) (trace self)) /\
     (forall pulses, open E pulses false self = Returns (Some false) self) /\
     (forall pulses, close E pulses false self = Returns (Some false) self) /\
     resume E self = Raises AttributeError self) /\
  (forall c, file = Some c -> PyStr.strip c <> EmptyString ->
   forall self, journal_file self = file ->
                load_journal self = Returns (Some (PyStr.strip c)) self).
Proof.
  split.
  - intros Hbad.
    assert (Hl : loaded file = None).
    { destruct Hbad as [-> | (c & -> & Hc)]; [reflexivity|].
      unfold loaded. now rewrite Hc. }
    split.
    + intros self Hj. unfold load_journal. rewrite Hj.
      destruct Hbad as [-> | (c & -> & Hc)]; [reflexivity|]. now rewrite Hc.
    + exists (constructed a file). rewrite init_unfold, Hl. cbv zeta.
      assert (Hst : status (constructed a file) = None) by exact Hl.
      repeat split; auto.
      * intros pin value Hin. simpl in Hin.
        destruct (arg_fake_it a); simpl in Hin;
          repeat (destruct Hin as [Hin|Hin]; [discriminate Hin|]); exact Hin.
      * intros pulses. rewrite open_unfold, status_is_false; [reflexivity|].
        rewrite Hst. discriminate.
      * intros pulses. rewrite close_unfold, status_is_false; [reflexivity|].
        rewrite Hst. discriminate.
      * unfold resume. now rewrite Hst.
  - intros c -> Hc self Hj. unfold load_journal. rewrite Hj.
    destruct (PyStr.strip c); [congruence|reflexivity].
Qed.

Lemma journal_load_contract_witness :
  (exists self,
     __init__ stalled (ten_seconds true) None = Returns tt self /\
     status self = None /\
     open stalled None false self = Returns (Some false) self) /\
  (exists self,
     __init__ stalled (ten_seconds true) (Some newline) = Returns tt self /\
     status self = None /\
     close stalled None false self = Returns (Some false) self) /\
  PyStr.strip (" open" ++ newline) <> EmptyString /\
  load_journal
    (door false 11 (" open" ++ newline)%string)
  = Returns (Some "open")
      (door false 11 (" open" ++ newline)%string).
Proof.
  split; [|split; [|split]].
  - destruct (proj1 (journal_load_contract stalled (ten_seconds true) None)
                (or_introl eq_refl))
      as (_ & self & Hi & Hst & _ & _ & Ho & _).
    exists self. repeat split; auto.
  - destruct (proj1 (journal_load_contract stalled (ten_seconds true)
                       (Some newline))
                (or_intror (ex_intro _ newline (conj eq_refl eq_refl))))
      as (_ & self & Hi & Hst & _ & _ & _ & Hc & _).
    exists self. repeat split; auto.
  - discriminate.
  - apply (proj2 (journal_load_contract stalled (ten_seconds true)
                    (Some (" open" ++ newline)%string))
             (" open" ++ newline)%string eq_refl);
      [discriminate|reflexivity].
Defined.

(** * Further properties of the code *)

(** ** How an operation can end *)

Lemma travel_sets_up E (drive : M bool) word done failed k resuming self :
  (exists s1, drive self = Returns true s1) ->
  forall self',
    travel E drive word done failed k resuming self = Returns None self' ->
    gpio_initialized self' = true.
Proof.
  intros (s1 & Hd) self'. unfold travel.
  rewrite (bind_returns _ _ _ _ _ Hd). cbn [negb].
  assert (Hup : exists s2,
            (if negb resuming then update_status word true else ret tt) s1
            = Returns tt s2).
  { destruct resuming; cbn [negb].
    - exists s1. reflexivity.
    - destruct (update_status_async word s1) as (s2 & Hu & _). eauto. }
  destruct Hup as (s2 & Hu). rewrite (bind_returns _ _ _ _ _ Hu).
  destruct (drive_wait_returns E k (Some word) s2) as (b & m & s3 & Hw & _).
  rewrite (bind_returns _ _ _ _ _ Hw).
  destruct (stop_and_housekeeping_returns s3) as (s4 & Hs & _ & _ & Hg4 & _).
  rewrite (bind_returns _ _ _ _ _ Hs).
  destruct (update_status_sync (if b then done else failed) s4)
    as (s5 & Hu5 & _ & _ & _ & _ & _ & Hg5 & _).
  destruct b; rewrite (bind_returns _ _ _ _ _ Hu5); unfold ret;
    intros [= <-]; congruence.
Qed.

Lemma open_travels E pulses resuming self :
  motor_busy self = false ->
  resuming = true \/ status self = Some "closed" ->
  exists self',
    open E pulses resuming self = Returns None self' /\
    travelled self CH1 "opening" "open" "failed opening" resuming
      (match pulses with None => open_pulses self | Some p => p end) self'.
Proof.
  intros Hidle Hpre.
  destruct (open_runs E pulses resuming self Hidle Hpre)
    as (m & s' & Hr & Hst & Hj & Hf & Hb & Ht & Hc).
  exists s'. split; [exact Hr|]. exists m. cbv zeta in *.
  repeat split; auto; try apply Hc.
  rewrite open_unfold, (passes_precondition _ _ _ Hpre) in Hr.
  destruct (forward_idle self Hidle) as (s1 & Hfw & _).
  eapply travel_sets_up; eauto.
Qed.

Lemma close_travels E pulses resuming self :
  motor_busy self = false ->
  resuming = true \/ status self = Some "open" ->
  exists self',
    close E pulses resuming self = Returns None self' /\
    travelled self CH2 "closing" "closed" "failed closing" resuming
      (match pulses with None => close_pulses self | Some p => p end) self'.
Proof.
  intros Hidle Hpre.
  destruct (close_runs E pulses resuming self Hidle Hpre)
    as (m & s' & Hr & Hst & Hj & Hf & Hb & Ht & Hc).
  exists s'. split; [exact Hr|]. exists m. cbv zeta in *.
  repeat split; auto; try apply Hc.
  rewrite close_unfold, (passes_precondition _ _ _ Hpre) in Hr.
  destruct (reverse_idle self Hidle) as (s1 & Hfw & _).
  eapply travel_sets_up; eauto.
Qed.

(** [open] ends in one of three ways: turned away with [False], aborted on
    a busy motor by the call of the logger object, or travelled. *)
Lemma open_outcome E pulses resuming self :
  open E pulses resuming self = Returns (Some false) self \/
  open E pulses resuming self = Raises TypeError self \/
  exists self',
    open E pulses resuming self = Returns None self' /\
    travelled self CH1 "opening" "open" "failed opening" resuming
      (match pulses with None => open_pulses self | Some p => p end) self'.
Proof.
  destruct (negb resuming && negb (status_is "closed" self)) eqn:Hpre.
  - left. rewrite open_unfold, Hpre. reflexivity.
  - right. destruct (motor_busy self) eqn:Hb.
    + left. rewrite open_unfold, Hpre. unfold travel.
      rewrite (bind_returns _ _ _ _ _ (forward_busy self Hb)). reflexivity.
    + right. apply open_travels; auto.
      destruct resuming; [now left|right].
      cbn [negb andb] in Hpre. apply negb_false_iff in Hpre.
      unfold status_is in Hpre. destruct (status self) as [s|]; [|discriminate].
      apply String.eqb_eq in Hpre. now subst.
Qed.

Lemma close_outcome E pulses resuming self :
  close E pulses resuming self = Returns (Some false) self \/
  close E pulses resuming self = Raises TypeError self \/
  exists self',
    close E pulses resuming self = Returns None self' /\
    travelled self CH2 "closing" "closed" "failed closing" resuming
      (match pulses with None => close_pulses self | Some p => p end) self'.
Proof.
  destruct (negb resuming && negb (status_is "open" self)) eqn:Hpre.
  - left. rewrite close_unfold, Hpre. reflexivity.
  - right. destruct (motor_busy self) eqn:Hb.
    + left. rewrite close_unfold, Hpre. unfold travel.
      rewrite (bind_returns _ _ _ _ _ (reverse_busy self Hb)). reflexivity.
    + right. apply close_travels; auto.
      destruct resuming; [now left|right].
      cbn [negb andb] in Hpre. apply negb_false_iff in Hpre.
      unfold status_is in Hpre. destruct (status self) as [s|]; [|discriminate].
      apply String.eqb_eq in Hpre. now subst.
Qed.

Lemma open_resuming_outcome E pulses self :
  open E pulses true self = Raises TypeError self \/
  exists self',
    open E pulses true self = Returns None self' /\
    travelled self CH1 "opening" "open" "failed opening" true
      (match pulses with None => open_pulses self | Some p => p end) self'.
Proof.
  destruct (motor_busy self) eqn:Hb.
  - left. rewrite open_unfold. cbn [negb andb]. unfold travel.
    rewrite (bind_returns _ _ _ _ _ (forward_busy self Hb)). reflexivity.
  - right. apply open_travels; auto.
Qed.

Lemma close_resuming_outcome E pulses self :
  close E pulses true self = Raises TypeError self \/
  exists self',
    close E pulses true self = Returns None self' /\
    travelled self CH2 "closing" "closed" "failed closing" true
      (match pulses with None => close_pulses self | Some p => p end) self'.
Proof.
  destruct (motor_busy self) eqn:Hb.
  - left. rewrite close_unfold. cbn [negb andb]. unfold travel.
    rewrite (bind_returns _ _ _ _ _ (reverse_busy self Hb)). reflexivity.
  - right. apply close_travels; auto.
Qed.

(** [resume] either leaves the object as it is (returning [False] or
    raising) or returns [True] after a resuming travel. *)
Lemma resume_outcome E self :
  resume E self = Returns false self \/
  (exists e, resume E self = Raises e self) \/
  exists k self',
    resume E self = Returns true self' /\
    (travelled self CH1 "opening" "open" "failed opening" true k self' \/
     travelled self CH2 "closing" "closed" "failed closing" true k self').
Proof.
  unfold resume. destruct (status self) as [s|]; [|right; left; eauto].
  destruct (PyStr.split s) as [|word rest']; [right; left; eauto|].
  destruct (if (String.eqb word "opening" || String.eqb word "closing")
               && (1 <? List.length (word :: rest'))%nat
            then option_map Some (PyStr.int (nth 1 (word :: rest') ""))
            else Some None) as [remaining|]; [|now left].
  destruct (String.eqb word "opening").
  { destruct (open_resuming_outcome E remaining self)
      as [Hbusy | (s' & Hr & Ht)].
    - right; left. exists TypeError. unfold bind. now rewrite Hbusy.
    - right; right. eexists _, s'.
      rewrite (bind_returns _ _ _ _ _ Hr). split; [reflexivity|].
      left. exact Ht. }
  destruct (String.eqb word "closing").
  { destruct (close_resuming_outcome E remaining self)
      as [Hbusy | (s' & Hr & Ht)].
    - right; left. exists TypeError. unfold bind. now rewrite Hbusy.
    - right; right. eexists _, s'.
      rewrite (bind_returns _ _ _ _ _ Hr). split; [reflexivity|].
      right. exact Ht. }
  now left.
Qed.

(** ** The levels written to the leads *)

Lemma levels_after_app l t1 t2 :
  levels_after l (t1 ++ t2) = levels_after (levels_after l t1) t2.
Proof. apply fold_left_app. Qed.

Lemma safe_from_app t1 : forall l t2,
  safe_from l (t1 ++ t2) =
  safe_from l t1 && safe_from (levels_after l t1) t2.
Proof.
  induction t1 as [|e t1 IH]; intros l t2; simpl; [reflexivity|].
  rewrite IH, andb_assoc. reflexivity.
Qed.

Lemma quiet_levels t : forall l, quiet t = true -> levels_after l t = l.
Proof.
  induction t as [|e t IH]; intros l H; simpl in *; [reflexivity|].
  apply andb_prop in H as [He Ht]. destruct e; try discriminate He;
    simpl; apply IH, Ht.
Qed.

Lemma quiet_safe t : forall l,
  quiet t = true -> both_low l = false -> safe_from l t = true.
Proof.
  induction t as [|e t IH]; intros l H Hl; simpl in *; [reflexivity|].
  apply andb_prop in H as [He Ht]. destruct e; try discriminate He;
    simpl; rewrite Hl; simpl; apply IH; auto.
Qed.

Lemma safe_final t : forall l,
  both_low l = false -> safe_from l t = true ->
  both_low (levels_after l t) = false.
Proof.
  induction t as [|e t IH]; intros l Hl H; simpl in *; [exact Hl|].
  apply andb_prop in H as [He Ht]. apply negb_true_iff in He.
  apply IH; auto.
Qed.

Lemma quiet_app t1 t2 : quiet (t1 ++ t2) = quiet t1 && quiet t2.
Proof. apply forallb_app. Qed.

Lemma countdown_quiet p k m : quiet (countdown p k m) = true.
Proof.
  unfold countdown. generalize (seq 1 m). intros l.
  induction l; simpl; auto.
Qed.

Lemma setup_events_quiet self : quiet (setup_events self) = true.
Proof. unfold setup_events. destruct (gpio_initialized self); reflexivity. Qed.

Lemma stop_events_levels l :
  safe_from l stop_events = true /\
  levels_after l stop_events = (Some 1, Some 1).
Proof. destruct l as [a b]. split; reflexivity. Qed.

(** A driven lead between two stops never meets the other lead low. *)
Lemma drive_events_levels self lead l :
  lead = CH1 \/ lead = CH2 ->
  both_low l = false ->
  let t := setup_events self ++ stop_events
           ++ (if faking_it self then [] else [GpioOutput lead 0]) in
  safe_from l t = true /\ both_low (levels_after l t) = false.
Proof.
  intros Hlead Hl. cbv zeta.
  rewrite safe_from_app, levels_after_app.
  rewrite (quiet_levels _ l (setup_events_quiet self)).
  rewrite (quiet_safe _ l (setup_events_quiet self) Hl).
  rewrite safe_from_app, levels_after_app.
  destruct (stop_events_levels l) as [-> ->].
  destruct (faking_it self); [split; reflexivity|].
  destruct Hlead as [-> | ->]; split; reflexivity.
Qed.

Lemma travel_events_split self lead word resuming k m terminal :
  travel_events self lead word resuming k m terminal =
  (setup_events self ++ stop_events
   ++ (if faking_it self then [] else [GpioOutput lead 0]))
  ++ ((if resuming then [] else [Submit word]) ++ countdown (Some word) k m)
  ++ stop_events ++ [WriteJournal terminal].
Proof. unfold travel_events. rewrite <- !app_assoc. reflexivity. Qed.

Lemma travel_events_levels self lead word resuming k m terminal l :
  lead = CH1 \/ lead = CH2 ->
  both_low l = false ->
  safe_from l (travel_events self lead word resuming k m terminal) = true /\
  levels_after l (travel_events self lead word resuming k m terminal)
  = (Some 1, Some 1).
Proof.
  intros Hlead Hl. rewrite travel_events_split.
  destruct (drive_events_levels self lead l Hlead Hl) as [Hs Hb].
  cbv zeta in Hs, Hb.
  assert (Hq : quiet ((if resuming then [] else [Submit word])
                      ++ countdown (Some word) k m) = true).
  { rewrite quiet_app, countdown_quiet. now destruct resuming. }
  set (t1 := setup_events self ++ stop_events
             ++ (if faking_it self then [] else [GpioOutput lead 0])) in *.
  set (q := (if resuming then [] else [Submit word])
            ++ countdown (Some word) k m) in *.
  rewrite !safe_from_app, !levels_after_app, Hs.
  rewrite (quiet_levels _ _ Hq), (quiet_safe _ _ Hq Hb).
  destruct (stop_events_levels (levels_after l t1)) as [-> ->].
  split; reflexivity.
Qed.

Lemma never_both_low_app t extra :
  never_both_low t ->
  safe_from (levels_after (None, None) t) extra = true ->
  never_both_low (t ++ extra).
Proof.
  unfold never_both_low. intros Ht He. now rewrite safe_from_app, Ht, He.
Qed.

Lemma never_both_low_final t :
  never_both_low t -> both_low (levels_after (None, None) t) = false.
Proof. intros H. apply safe_final; auto. Qed.

Lemma travelled_levels self lead word done failed resuming k self' :
  lead = CH1 \/ lead = CH2 ->
  never_both_low (trace self) ->
  travelled self lead word done failed resuming k self' ->
  never_both_low (trace self') /\
  levels_after (None, None) (trace self') = (Some 1, Some 1).
Proof.
  intros Hlead Hsafe (m & _ & _ & _ & _ & _ & Ht & _). cbv zeta in Ht.
  rewrite Ht.
  destruct (travel_events_levels self lead word resuming k m
              (if k <=? Z.of_nat m then done else failed)
              (levels_after (None, None) (trace self)) Hlead
              (never_both_low_final _ Hsafe)) as [Hs Hl].
  split; [apply never_both_low_app; auto|].
  now rewrite levels_after_app.
Qed.

Lemma open_ends E pulses resuming self :
  exists self',
    final (open E pulses resuming self) = Some self' /\
    (self' = self \/
     travelled self CH1 "opening" "open" "failed opening" resuming
       (match pulses with None => open_pulses self | Some p => p end) self').
Proof.
  destruct (open_outcome E pulses resuming self)
    as [H | [H | (s' & H & Ht)]]; rewrite H;
    [exists self; split; [reflexivity|now left]
    |exists self; split; [reflexivity|now left]
    |exists s'; split; [reflexivity|now right]].
Qed.

Lemma close_ends E pulses resuming self :
  exists self',
    final (close E pulses resuming self) = Some self' /\
    (self' = self \/
     travelled self CH2 "closing" "closed" "failed closing" resuming
       (match pulses with None => close_pulses self | Some p => p end) self').
Proof.
  destruct (close_outcome E pulses resuming self)
    as [H | [H | (s' & H & Ht)]]; rewrite H;
    [exists self; split; [reflexivity|now left]
    |exists self; split; [reflexivity|now left]
    |exists s'; split; [reflexivity|now right]].
Qed.

Lemma resume_ends E self :
  exists self',
    final (resume E self) = Some self' /\
    (self' = self \/
     exists k,
       travelled self CH1 "opening" "open" "failed opening" true k self' \/
       travelled self CH2 "closing" "closed" "failed closing" true k self').
Proof.
  destruct (resume_outcome E self)
    as [H | [(e & H) | (k & s' & H & Ht)]]; rewrite H;
    [exists self; split; [reflexivity|now left]
    |exists self; split; [reflexivity|now left]
    |exists s'; split; [reflexivity|right; eauto]].
Qed.

Lemma travelled_at_rest self lead word done failed resuming k self' :
  travelled self lead word done failed resuming k self' ->
  (status self' = Some done \/ status self' = Some failed) /\
  journal_file self' = status self' /\
  journal_futures self' = [] /\
  motor_busy self' = false.
Proof.
  intros (m & Hst & Hj & Hf & Hb & _). cbv zeta in *.
  repeat split; auto; try congruence.
  destruct (k <=? Z.of_nat m); auto.
Qed.

(** ** X1: an operation changes nothing or finishes the travel *)

(** X1. Every call of [open], [close] and [resume], in any state and with
    any feedback, comes to an end (it returns or raises), and then either
    the object and its surroundings are exactly as before the call, or the
    status is a terminal word ([open] or [failed opening] after an opening
    travel, [closed] or [failed closing] after a closing one), the journal
    file holds that same word, no journal future is outstanding and the
    busy flag is clear.  No call ends with an in-progress status of its own
    making. *)
Theorem operation_changes_nothing_or_finishes (E : environment) (self : pimc) :
  (forall pulses resuming,
     exists self',
       final (open E pulses resuming self) = Some self' /\
       (self' = self \/
        (status self' = Some "open" \/ status self' = Some "failed opening") /\
        journal_file self' = status self' /\
        journal_futures self' = [] /\ motor_busy self' = false)) /\
  (forall pulses resuming,
     exists self',
       final (close E pulses resuming self) = Some self' /\
       (self' = self \/
        (status self' = Some "closed" \/ status self' = Some "failed closing") /\
        journal_file self' = status self' /\
        journal_futures self' = [] /\ motor_busy self' = false)) /\
  (exists self',
     final (resume E self) = Some self' /\
     (self' = self \/
      (status self' = Some "open" \/ status self' = Some "failed opening" \/
       status self' = Some "closed" \/ status self' = Some "failed closing") /\
      journal_file self' = status self' /\
      journal_futures self' = [] /\ motor_busy self' = false)).
Proof.
  split; [|split].
  - intros pulses resuming.
    destruct (open_ends E pulses resuming self) as (s' & Hf & [-> | Ht]).
    + exists self. auto.
    + exists s'. split; [exact Hf|]. right.
      apply (travelled_at_rest _ _ _ _ _ _ _ _ Ht).
  - intros pulses resuming.
    destruct (close_ends E pulses resuming self) as (s' & Hf & [-> | Ht]).
    + exists self. auto.
    + exists s'. split; [exact Hf|]. right.
      apply (travelled_at_rest _ _ _ _ _ _ _ _ Ht).
  - destruct (resume_ends E self) as (s' & Hf & [-> | (k & [Ht | Ht])]).
    + exists self. auto.
    + exists s'. split; [exact Hf|]. right.
      destruct (travelled_at_rest _ _ _ _ _ _ _ _ Ht) as ([H | H] & ? & ? & ?);
        repeat split; auto.
    + exists s'. split; [exact Hf|]. right.
      destruct (travelled_at_rest _ _ _ _ _ _ _ _ Ht) as ([H | H] & ? & ? & ?);
        repeat split; auto.
Qed.

(** ** X2: the motor is stopped when an operation ends *)

(** X2. When a call of [open], [close] or [resume] ends and has changed
    anything, the last value written to each of the two leads is high: the
    motor is never left driven when control comes back to the caller. *)
Theorem operation_leaves_motor_stopped (E : environment) (self : pimc) :
  (forall pulses resuming,
     exists self',
       final (open E pulses resuming self) = Some self' /\
       (self' = self \/
        levels_after (None, None) (trace self') = (Some 1, Some 1))) /\
  (forall pulses resuming,
     exists self',
       final (close E pulses resuming self) = Some self' /\
       (self' = self \/
        levels_after (None, None) (trace self') = (Some 1, Some 1))) /\
  (exists self',
     final (resume E self) = Some self' /\
     (self' = self \/
      levels_after (None, None) (trace self') = (Some 1, Some 1))).
Proof.
  assert (Hlv : forall lead word done failed resuming k self',
             travelled self lead word done failed resuming k self' ->
             levels_after (None, None) (trace self') = (Some 1, Some 1)).
  { intros lead word done failed resuming k s' (m & _ & _ & _ & _ & _ & Ht & _).
    cbv zeta in Ht. rewrite Ht, travel_events_split.
    set (t1 := setup_events self ++ stop_events
               ++ (if faking_it self then [] else [GpioOutput lead 0])).
    set (q := (if resuming then [] else [Submit word])
              ++ countdown (Some word) k m).
    rewrite !levels_after_app.
    match goal with
    | |- context [levels_after ?l0 stop_events] =>
        destruct (stop_events_levels l0) as [_ ->]
    end.
    reflexivity. }
  split; [|split].
  - intros pulses resuming.
    destruct (open_ends E pulses resuming self) as (s' & Hf & [-> | Ht]);
      eauto.
  - intros pulses resuming.
    destruct (close_ends E pulses resuming self) as (s' & Hf & [-> | Ht]);
      eauto.
  - destruct (resume_ends E self) as (s' & Hf & [-> | (k & [Ht | Ht])]);
      eauto.
Qed.

(** ** X3: the two leads are never low together *)

(** X3. If no write so far has left both leads low, then neither does any
    write made by [stop_and_housekeeping], [forward], [reverse], [open],
    [close] or [resume]: whenever one lead is written low the other was last
    written high. *)
Theorem leads_never_both_low (E : environment) (self : pimc) :
  never_both_low (trace self) ->
  (forall self', final (stop_and_housekeeping self) = Some self' ->
                 never_both_low (trace self')) /\
  (forall self', final (forward self) = Some self' ->
                 never_both_low (trace self')) /\
  (forall self', final (reverse self) = Some self' ->
                 never_both_low (trace self')) /\
  (forall pulses resuming self',
     final (open E pulses resuming self) = Some self' ->
     never_both_low (trace self')) /\
  (forall pulses resuming self',
     final (close E pulses resuming self) = Some self' ->
     never_both_low (trace self')) /\
  (forall self', final (resume E self) = Some self' ->
                 never_both_low (trace self')).
Proof.
  intros Hsafe.
  pose proof (never_both_low_final _ Hsafe) as Hl.
  assert (Hdrive : forall lead, lead = CH1 \/ lead = CH2 ->
            never_both_low
              (trace self ++ setup_events self ++ stop_events
               ++ (if faking_it self then [] else [GpioOutput lead 0]))).
  { intros lead Hlead. apply never_both_low_app; auto.
    apply (drive_events_levels self lead _ Hlead Hl). }
  repeat split.
  - intros s'. destruct (stop_and_housekeeping_returns self)
      as (s1 & Hs & _ & _ & _ & _ & _ & Ht & _).
    rewrite Hs. intros [= <-]. rewrite Ht.
    apply never_both_low_app; auto.
    rewrite safe_from_app, (quiet_levels _ _ (setup_events_quiet self)).
    rewrite (quiet_safe _ _ (setup_events_quiet self) Hl).
    apply (stop_events_levels (levels_after (None, None) (trace self))).
  - intros s'. destruct (motor_busy self) eqn:Hb.
    + rewrite (forward_busy self Hb). now intros [= <-].
    + destruct (forward_idle self Hb) as (s1 & Hf & _ & _ & _ & _ & _ & Ht & _).
      rewrite Hf. intros [= <-]. rewrite Ht. apply Hdrive. now left.
  - intros s'. destruct (motor_busy self) eqn:Hb.
    + rewrite (reverse_busy self Hb). now intros [= <-].
    + destruct (reverse_idle self Hb) as (s1 & Hf & _ & _ & _ & _ & _ & Ht & _).
      rewrite Hf. intros [= <-]. rewrite Ht. apply Hdrive. now right.
  - intros pulses resuming s' Hf.
    destruct (open_ends E pulses resuming self) as (s1 & Hf1 & [-> | Ht]).
    + congruence.
    + assert (s' = s1) by congruence. subst s1.
      apply (travelled_levels _ CH1 _ _ _ _ _ _ (or_introl eq_refl) Hsafe Ht).
  - intros pulses resuming s' Hf.
    destruct (close_ends E pulses resuming self) as (s1 & Hf1 & [-> | Ht]).
    + congruence.
    + assert (s' = s1) by congruence. subst s1.
      apply (travelled_levels _ CH2 _ _ _ _ _ _ (or_intror eq_refl) Hsafe Ht).
  - intros s' Hf.
    destruct (resume_ends E self) as (s1 & Hf1 & [-> | (k & [Ht | Ht])]).
    + congruence.
    + assert (s' = s1) by congruence. subst s1.
      apply (travelled_levels _ CH1 _ _ _ _ _ _ (or_introl eq_refl) Hsafe Ht).
    + assert (s' = s1) by congruence. subst s1.
      apply (travelled_levels _ CH2 _ _ _ _ _ _ (or_intror eq_refl) Hsafe Ht).
Qed.

Lemma leads_never_both_low_witness :
  never_both_low (trace (door false 3 "closed")) /\
  exists s1 s2,
    open square_wave None false (door false 3 "closed") = Returns None s1 /\
    never_both_low (trace s1) /\
    forward s1 = Returns true s2 /\
    reverse s2 = Returns true
      (with_trace (trace s2 ++ [GpioOutput CH1 1; GpioOutput CH2 1;
                                GpioOutput CH2 0]) s2) /\
    never_both_low (trace s2 ++ [GpioOutput CH1 1; GpioOutput CH2 1;
                                 GpioOutput CH2 0]).
Proof.
  assert (H0 : never_both_low (trace (door false 3 "closed"))) by reflexivity.
  split; [exact H0|].
  assert (Ho : exists s1,
             open square_wave None false (door false 3 "closed")
             = Returns None s1).
  { eexists. vm_compute. reflexivity. }
  destruct Ho as (s1 & Ho).
  assert (H1 : never_both_low (trace s1)).
  { destruct (leads_never_both_low square_wave _ H0) as (_ & _ & _ & Hopen & _).
    apply (Hopen None false s1). rewrite Ho. reflexivity. }
  assert (Hf : exists s2, forward s1 = Returns true s2).
  { vm_compute in Ho. inversion Ho; subst s1. eexists. vm_compute. reflexivity. }
  destruct Hf as (s2 & Hf).
  assert (H2 : never_both_low (trace s2)).
  { destruct (leads_never_both_low square_wave _ H1) as (_ & Hfw & _).
    apply (Hfw s2). rewrite Hf. reflexivity. }
  exists s1, s2. split; [exact Ho|]. split; [exact H1|]. split; [exact Hf|].
  assert (Hr : reverse s2 = Returns true
             (with_trace (trace s2 ++ [GpioOutput CH1 1; GpioOutput CH2 1;
                                       GpioOutput CH2 0]) s2)).
  { vm_compute in Ho. inversion Ho; subst s1.
    vm_compute in Hf. inversion Hf; subst s2. vm_compute. reflexivity. }
  split; [exact Hr|].
  destruct (leads_never_both_low square_wave _ H2) as (_ & _ & Hrv & _).
  apply (Hrv _ (f_equal final Hr)).
Defined.

(** ** More facts about the string helpers *)

Lemma split_head c r : PyStr.isspace c = false -> PyStr.split (String c r) <> [].
Proof.
  intros Hc. simpl. rewrite Hc. destruct r as [|c' r']; [discriminate|].
  destruct (PyStr.isspace c'); [discriminate|].
  destruct (PyStr.split (String c' r')); discriminate.
Qed.

Lemma lstrip_head s :
  PyStr.lstrip s = EmptyString \/
  exists c r, PyStr.lstrip s = String c r /\ PyStr.isspace c = false.
Proof.
  induction s as [|c r IH]; simpl; [now left|].
  destruct (PyStr.isspace c) eqn:Hc; [exact IH|]. right. eauto.
Qed.

Lemma rstrip_head c r :
  PyStr.isspace c = false -> exists r', PyStr.rstrip (String c r) = String c r'.
Proof.
  intros Hc. simpl. destruct (PyStr.rstrip r); [rewrite Hc|]; eauto.
Qed.

Lemma strip_head s :
  PyStr.strip s = EmptyString \/
  exists c r, PyStr.strip s = String c r /\ PyStr.isspace c = false.
Proof.
  unfold PyStr.strip. destruct (lstrip_head s) as [-> | (c & r & -> & Hc)].
  - now left.
  - right. destruct (rstrip_head c r Hc) as (r' & ->). eauto.
Qed.

Lemma rstrip_app_word a b :
  b <> EmptyString -> no_space b = true ->
  PyStr.rstrip (a ++ b)%string = (a ++ b)%string.
Proof.
  intros Hne Hns. induction a as [|c a IH].
  - apply rstrip_no_space, Hns.
  - change (String c a ++ b)%string with (String c (a ++ b)%string).
    cbn [PyStr.rstrip]. rewrite IH.
    destruct (a ++ b)%string eqn:Hab; [|reflexivity].
    destruct a; simpl in Hab; congruence.
Qed.

(** The statuses the wait loops write are left alone by [strip]. *)
Lemma strip_progress c w n :
  PyStr.isspace c = false ->
  PyStr.strip (progress (Some (String c w)) n) = progress (Some (String c w)) n.
Proof.
  intros Hc. unfold PyStr.strip, progress, prefix_of.
  destruct (str_word n) as [Hne Hns].
  change ((String c w ++ " " ++ PyStr.str n)%string)
    with (String c (w ++ " " ++ PyStr.str n)%string).
  cbn [PyStr.lstrip]. rewrite Hc.
  replace (String c (w ++ " " ++ PyStr.str n)%string)
    with ((String c w ++ " ") ++ PyStr.str n)%string.
  - apply rstrip_app_word; auto.
  - simpl. f_equal. induction w; simpl; congruence.
Qed.

Lemma load_journal_loaded self :
  load_journal self = Returns (loaded (journal_file self)) self.
Proof.
  unfold load_journal, loaded. destruct (journal_file self) as [c|]; auto.
  destruct (PyStr.truthy (PyStr.strip c)); reflexivity.
Qed.

Lemma loaded_splits file s : loaded file = Some s -> PyStr.split s <> [].
Proof.
  unfold loaded. destruct file as [c|]; [|discriminate].
  destruct (strip_head c) as [-> | (a & r & -> & Ha)]; [discriminate|].
  simpl. intros [= <-]. apply split_head, Ha.
Qed.

(** ** Operations on an idle motor *)

Lemma open_idle E pulses resuming self :
  motor_busy self = false ->
  open E pulses resuming self = Returns (Some false) self \/
  exists self',
    open E pulses resuming self = Returns None self' /\
    travelled self CH1 "opening" "open" "failed opening" resuming
      (match pulses with None => open_pulses self | Some p => p end) self'.
Proof.
  intros Hidle.
  destruct (negb resuming && negb (status_is "closed" self)) eqn:Hpre.
  - left. rewrite open_unfold, Hpre. reflexivity.
  - right. apply open_travels; auto.
    destruct resuming; [now left|right].
    cbn [negb andb] in Hpre. apply negb_false_iff in Hpre.
    unfold status_is in Hpre. destruct (status self) as [s|]; [|discriminate].
    apply String.eqb_eq in Hpre. now subst.
Qed.

Lemma close_idle E pulses resuming self :
  motor_busy self = false ->
  close E pulses resuming self = Returns (Some false) self \/
  exists self',
    close E pulses resuming self = Returns None self' /\
    travelled self CH2 "closing" "closed" "failed closing" resuming
      (match pulses with None => close_pulses self | Some p => p end) self'.
Proof.
  intros Hidle.
  destruct (negb resuming && negb (status_is "open" self)) eqn:Hpre.
  - left. rewrite close_unfold, Hpre. reflexivity.
  - right. apply close_travels; auto.
    destruct resuming; [now left|right].
    cbn [negb andb] in Hpre. apply negb_false_iff in Hpre.
    unfold status_is in Hpre. destruct (status self) as [s|]; [|discriminate].
    apply String.eqb_eq in Hpre. now subst.
Qed.

Lemma resume_idle E self s :
  motor_busy self = false ->
  status self = Some s -> PyStr.split s <> [] ->
  resume E self = Returns false self \/
  exists k self',
    resume E self = Returns true self' /\
    (travelled self CH1 "opening" "open" "failed opening" true k self' \/
     travelled self CH2 "closing" "closed" "failed closing" true k self').
Proof.
  intros Hidle Hst Hsp. unfold resume. rewrite Hst.
  destruct (PyStr.split s) as [|word rest']; [congruence|].
  destruct (if (String.eqb word "opening" || String.eqb word "closing")
               && (1 <? List.length (word :: rest'))%nat
            then option_map Some (PyStr.int (nth 1 (word :: rest') ""))
            else Some None) as [remaining|]; [|now left].
  destruct (String.eqb word "opening").
  { right.
    destruct (open_travels E remaining true self Hidle (or_introl eq_refl))
      as (s' & Hr & Ht).
    eexists _, s'. rewrite (bind_returns _ _ _ _ _ Hr).
    split; [reflexivity|]. left. exact Ht. }
  destruct (String.eqb word "closing").
  { right.
    destruct (close_travels E remaining true self Hidle (or_introl eq_refl))
      as (s' & Hr & Ht).
    eexists _, s'. rewrite (bind_returns _ _ _ _ _ Hr).
    split; [reflexivity|]. right. exact Ht. }
  now left.
Qed.

(** ** X4: what [resume] refuses *)

(** X4. [resume] acts only on a status whose first word is [opening] or
    [closing].  With any other first word, such as [open], [closed] or
    [failed], it returns [False] and changes nothing; with no status at all
    (the journal could not be loaded) it raises [AttributeError], again
    without touching anything. *)
Theorem resume_refuses_other_statuses (E : environment) (self : pimc) :
  (status self = None -> resume E self = Raises AttributeError self) /\
  (forall s word rest,
     status self = Some s ->
     PyStr.split s = word :: rest ->
     word <> "opening" -> word <> "closing" ->
     resume E self = Returns false self).
Proof.
  split.
  - intros Hst. unfold resume. now rewrite Hst.
  - intros s word rest Hst Hsp Ho Hc. unfold resume. rewrite Hst, Hsp.
    apply String.eqb_neq in Ho, Hc. rewrite Ho, Hc. reflexivity.
Qed.

Lemma resume_refuses_other_statuses_witness :
  status (door false 11 " ") = None /\
  resume stalled (door false 11 " ")
  = Raises AttributeError (door false 11 " ") /\
  resume stalled (door false 11 "failed closing")
  = Returns false (door false 11 "failed closing") /\
  resume stalled (door false 11 "open")
  = Returns false (door false 11 "open").
Proof.
  split; [reflexivity|]. split; [|split].
  - apply (proj1 (resume_refuses_other_statuses stalled (door false 11 " "))).
    reflexivity.
  - apply (proj2 (resume_refuses_other_statuses stalled
                    (door false 11 "failed closing"))
             "failed closing" "failed" ["closing"]);
      [reflexivity|reflexivity|discriminate|discriminate].
  - apply (proj2 (resume_refuses_other_statuses stalled (door false 11 "open"))
             "open" "open" []);
      [reflexivity|reflexivity|discriminate|discriminate].
Defined.

(** ** X5: resuming from a bare in-progress word *)

(** X5. When the status is the bare word [opening] (or [closing]), as
    written at the start of a travel before any pulse was counted, [resume]
    calls [open] (or [close]) without a pulse count, so that on an idle
    motor the resumed travel waits for the full configured [open_pulses]
    (or [close_pulses]) and [resume] returns [True]. *)
Theorem resume_bare_word_uses_configured_count (E : environment)
  (self : pimc) :
  (status self = Some "opening" ->
   resume E self = (open E None true ;; ret true) self /\
   (motor_busy self = false ->
    exists self',
      resume E self = Returns true self' /\
      travelled self CH1 "opening" "open" "failed opening" true
        (open_pulses self) self')) /\
  (status self = Some "closing" ->
   resume E self = (close E None true ;; ret true) self /\
   (motor_busy self = false ->
    exists self',
      resume E self = Returns true self' /\
      travelled self CH2 "closing" "closed" "failed closing" true
        (close_pulses self) self')).
Proof.
  split; intros Hst.
  - assert (Hr : resume E self = (open E None true ;; ret true) self)
      by (unfold resume; rewrite Hst; reflexivity).
    split; [exact Hr|]. intros Hidle.
    destruct (open_travels E None true self Hidle (or_introl eq_refl))
      as (s' & Ho & Ht).
    exists s'. rewrite Hr, (bind_returns _ _ _ _ _ Ho). auto.
  - assert (Hr : resume E self = (close E None true ;; ret true) self)
      by (unfold resume; rewrite Hst; reflexivity).
    split; [exact Hr|]. intros Hidle.
    destruct (close_travels E None true self Hidle (or_introl eq_refl))
      as (s' & Ho & Ht).
    exists s'. rewrite Hr, (bind_returns _ _ _ _ _ Ho). auto.
Qed.

Lemma resume_bare_word_uses_configured_count_witness :
  (exists self',
     resume square_wave (door false 2 "opening") = Returns true self' /\
     trace self' =
       [GpioSetup CH1 OUT; GpioSetup CH2 OUT; GpioSetup PULSE IN;
        GpioOutput CH1 1; GpioOutput CH2 1; GpioOutput CH1 0;
        Submit "opening 1"; Submit "opening 0";
        GpioOutput CH1 1; GpioOutput CH2 1; WriteJournal "open"]) /\
  (exists self',
     resume square_wave (door false 2 "closing") = Returns true self' /\
     status self' = Some "closed").
Proof.
  split.
  - destruct (proj1 (resume_bare_word_uses_configured_count square_wave
                       (door false 2 "opening")) eq_refl) as [_ Hrun].
    destruct (Hrun eq_refl) as (s' & Hr & _).
    exists s'. split; [exact Hr|].
    vm_compute in Hr. inversion Hr. reflexivity.
  - destruct (proj2 (resume_bare_word_uses_configured_count square_wave
                       (door false 2 "closing")) eq_refl) as [_ Hrun].
    destruct (Hrun eq_refl) as (s' & Hr & _).
    exists s'. split; [exact Hr|].
    vm_compute in Hr. inversion Hr. reflexivity.
Defined.

(** ** X6: what a failed status refuses *)

(** X6. When the status is [failed opening] or [failed closing], the plain
    calls [open()] and [close()] (not resuming) and [resume()] all return
    [False] and leave the object, the journal and the leads as they are.
    The status test is the only thing in their way: a direct call with
    [resuming=True] skips it, so on an idle motor [open(resuming=True)]
    travels and replaces the failed status with [open] or
    [failed opening], and [close(resuming=True)] with [closed] or
    [failed closing]. *)
Theorem failed_refuses_plain_calls (E : environment) (self : pimc)
  (pulses : option Z) :
  status self = Some "failed opening" \/ status self = Some "failed closing" ->
  open E pulses false self = Returns (Some false) self /\
  close E pulses false self = Returns (Some false) self /\
  resume E self = Returns false self /\
  (motor_busy self = false ->
   (exists self',
      open E pulses true self = Returns None self' /\
      (status self' = Some "open" \/ status self' = Some "failed opening") /\
      journal_file self' = status self') /\
   (exists self',
      close E pulses true self = Returns None self' /\
      (status self' = Some "closed" \/ status self' = Some "failed closing") /\
      journal_file self' = status self')).
Proof.
  intros Hst. split; [|split; [|split]].
  - rewrite open_unfold, status_is_false; [reflexivity|].
    destruct Hst as [-> | ->]; discriminate.
  - rewrite close_unfold, status_is_false; [reflexivity|].
    destruct Hst as [-> | ->]; discriminate.
  - unfold resume. destruct Hst as [-> | ->]; reflexivity.
  - intros Hidle. split.
    + destruct (open_travels E pulses true self Hidle (or_introl eq_refl))
        as (s' & Hr & Ht).
      exists s'. split; [exact Hr|].
      destruct (travelled_at_rest _ _ _ _ _ _ _ _ Ht) as (H1 & H2 & _). auto.
    + destruct (close_travels E pulses true self Hidle (or_introl eq_refl))
        as (s' & Hr & Ht).
      exists s'. split; [exact Hr|].
      destruct (travelled_at_rest _ _ _ _ _ _ _ _ Ht) as (H1 & H2 & _). auto.
Qed.

Lemma failed_refuses_plain_calls_witness :
  status (door false 2 "failed opening") = Some "failed opening" /\
  motor_busy (door false 2 "failed opening") = false /\
  open stalled None false (door false 2 "failed opening")
  = Returns (Some false) (door false 2 "failed opening") /\
  close stalled None false (door false 2 "failed opening")
  = Returns (Some false) (door false 2 "failed opening") /\
  resume stalled (door false 2 "failed opening")
  = Returns false (door false 2 "failed opening") /\
  exists self',
    open square_wave None true (door false 2 "failed opening")
    = Returns None self' /\
    status self' = Some "open".
Proof.
  split; [reflexivity|]. split; [reflexivity|].
  destruct (failed_refuses_plain_calls stalled (door false 2 "failed opening")
              None (or_introl eq_refl)) as (Ho & Hc & Hr & _).
  split; [exact Ho|]. split; [exact Hc|]. split; [exact Hr|].
  destruct (failed_refuses_plain_calls square_wave
              (door false 2 "failed opening") None (or_introl eq_refl))
    as (_ & _ & _ & Hres).
  destruct (Hres eq_refl) as ((s' & Hopen & _ & _) & _).
  exists s'. split; [exact Hopen|].
  vm_compute in Hopen. inversion Hopen. reflexivity.
Defined.

(** ** The constructor, whatever the journal holds *)

Lemma constructed_idle a file :
  motor_busy (constructed a file) = false /\
  journal_futures (constructed a file) = [] /\
  status (constructed a file) = loaded file /\
  journal_file (constructed a file) = file /\
  quiet (trace (constructed a file)) = true.
Proof. simpl. repeat split. now destruct (arg_fake_it a). Qed.

Lemma init_ends E a file :
  exists self,
    __init__ E a file = Returns tt self /\
    (self = constructed a file \/
     arg_resume a = true /\
     exists k,
       travelled (constructed a file) CH1 "opening" "open" "failed opening"
         true k self \/
       travelled (constructed a file) CH2 "closing" "closed" "failed closing"
         true k self).
Proof.
  rewrite init_unfold. cbv zeta.
  destruct (loaded file) as [s|] eqn:Hl; [|eauto].
  destruct (arg_resume a) eqn:Hres; cbn [andb]; [|eauto].
  destruct (PyStr.truthy s); [|eauto].
  pose proof (loaded_splits _ _ Hl) as Hsp.
  destruct (PyStr.split s) as [|word rest] eqn:Hs; [congruence|].
  destruct (String.eqb word "open" || String.eqb word "closed"); [eauto|].
  destruct (constructed_idle a file) as (Hb & _ & Hst & _).
  rewrite Hl in Hst.
  destruct (resume_idle E (constructed a file) s Hb Hst)
    as [Hr | (k & s' & Hr & Ht)].
  - rewrite Hs. discriminate.
  - unfold bind. rewrite Hr. eauto.
  - unfold bind. rewrite Hr. exists s'. split; [reflexivity|]. right. eauto.
Qed.

Lemma loaded_terminal w :
  terminal_word w = true -> loaded (Some w) = Some w.
Proof.
  unfold terminal_word. intros H.
  repeat (apply orb_prop in H as [H|H]);
    apply String.eqb_eq in H; subst; reflexivity.
Qed.

Lemma travelled_reloads self lead lead' resuming k self' :
  (travelled self lead "opening" "open" "failed opening" resuming k self' \/
   travelled self lead' "closing" "closed" "failed closing" resuming k self') ->
  load_journal self' = Returns (status self') self'.
Proof.
  rewrite load_journal_loaded.
  intros [(m & Hst & Hj & _) | (m & Hst & Hj & _)]; cbv zeta in *;
    rewrite Hj, Hst; destruct (k <=? Z.of_nat m); reflexivity.
Qed.

(** ** X7: the constructor always returns a sound object *)

(** X7. For a journal file that is missing or that [read()] delivers as
    text, whatever that text is (empty, blank, a word the controller does
    not know, a terminal or an in-progress status), and for any arguments
    and feedback, the constructor returns without raising.  The object it
    returns has an idle motor and no outstanding journal future, reading
    the journal again would give exactly its status, and no write has left
    both leads low.  Without [resume] the object is the freshly built one:
    nothing was written to the leads or to the journal.  (A journal that
    cannot be opened or decoded is outside the embedding: there [open()] or
    [read()] raises before any of this.) *)
Theorem constructor_always_returns (E : environment) (a : arguments)
  (file : option string) :
  exists self,
    __init__ E a file = Returns tt self /\
    motor_busy self = false /\
    journal_futures self = [] /\
    load_journal self = Returns (status self) self /\
    never_both_low (trace self) /\
    (arg_resume a = false ->
     self = constructed a file /\ journal_file self = file /\
     quiet (trace self) = true).
Proof.
  destruct (constructed_idle a file) as (Hb & Hf & Hst & Hj & Hq).
  assert (Hsafe : never_both_low (trace (constructed a file)))
    by (apply quiet_safe; auto).
  destruct (init_ends E a file) as (self & Hi & [-> | (Hres & k & Ht)]).
  - exists (constructed a file). repeat split; auto.
    rewrite load_journal_loaded. now rewrite Hj, Hst.
  - exists self. split; [exact Hi|].
    assert (Hrest : motor_busy self = false /\ journal_futures self = []).
    { destruct Ht as [(m & _ & _ & ? & ? & _) | (m & _ & _ & ? & ? & _)]; auto. }
    destruct Hrest as [Hb' Hf'].
    split; [exact Hb'|]. split; [exact Hf'|].
    split; [apply (travelled_reloads _ _ _ _ _ _ Ht)|].
    split; [|intros Hno; congruence].
    destruct Ht as [Ht | Ht].
    + apply (travelled_levels _ CH1 _ _ _ _ _ _ (or_introl eq_refl) Hsafe Ht).
    + apply (travelled_levels _ CH2 _ _ _ _ _ _ (or_intror eq_refl) Hsafe Ht).
Qed.

Lemma constructor_always_returns_witness :
  arg_resume (defaults false 11) = false /\
  __init__ stalled (defaults false 11) (Some "no such status")
  = Returns tt (constructed (defaults false 11) (Some "no such status")) /\
  exists self,
    __init__ stalled (ten_seconds true) (Some "closing 2") = Returns tt self /\
    motor_busy self = false /\
    load_journal self = Returns (Some "failed closing") self.
Proof.
  split; [reflexivity|]. split.
  - destruct (constructor_always_returns stalled (defaults false 11)
                (Some "no such status")) as (self & Hi & _ & _ & _ & _ & Hno).
    destruct (Hno eq_refl) as (-> & _). exact Hi.
  - destruct (constructor_always_returns stalled (ten_seconds true)
                (Some "closing 2")) as (self & Hi & Hb & _ & Hl & _).
    exists self. split; [exact Hi|]. split; [exact Hb|].
    rewrite Hl. vm_compute in Hi. inversion Hi. reflexivity.
Defined.

(** ** X8: restarting on an interrupted travel *)

(** X8. When the journal holds an in-progress status as the wait loop
    writes it, [opening <r>] or [closing <r>], and the constructor is asked
    to resume, construction carries out exactly [open(r, resuming=True)]
    (or [close(r, resuming=True)]) on the freshly built object: the status
    survives the trip through the file, [strip], [split] and [int]
    unchanged, so the restarted travel waits for the [r] pulses that were
    left. *)
Theorem constructor_resumes_journal (E : environment) (a : arguments) (r : Z) :
  arg_resume a = true ->
  __init__ E a (Some (progress (Some "opening") r))
  = (open E (Some r) true ;; ret tt)
      (constructed a (Some (progress (Some "opening") r))) /\
  __init__ E a (Some (progress (Some "closing") r))
  = (close E (Some r) true ;; ret tt)
      (constructed a (Some (progress (Some "closing") r))).
Proof.
  intros Hres. destruct (str_word r) as [Hne Hns]. split.
  - assert (Hl : loaded (Some (progress (Some "opening") r))
                 = Some ("opening " ++ PyStr.str r)%string).
    { unfold loaded. rewrite (strip_progress "o" "pening" r eq_refl).
      reflexivity. }
    rewrite init_unfold. cbv zeta. rewrite Hl, Hres.
    change (PyStr.truthy ("opening " ++ PyStr.str r)) with true. cbn [andb].
    change (PyStr.split ("opening " ++ PyStr.str r))
      with (PyStr.split ("opening" ++ " " ++ PyStr.str r)%string).
    rewrite (split_in_progress "opening" (PyStr.str r)); auto;
      [|discriminate].
    change (String.eqb "opening" "open" || String.eqb "opening" "closed")
      with false. cbv iota.
    unfold bind at 1.
    rewrite (resume_opening E _ r) by (simpl; exact Hl).
    unfold bind, ret.
    destruct (open E (Some r) true _); reflexivity.
  - assert (Hl : loaded (Some (progress (Some "closing") r))
                 = Some ("closing " ++ PyStr.str r)%string).
    { unfold loaded. rewrite (strip_progress "c" "losing" r eq_refl).
      reflexivity. }
    rewrite init_unfold. cbv zeta. rewrite Hl, Hres.
    change (PyStr.truthy ("closing " ++ PyStr.str r)) with true. cbn [andb].
    change (PyStr.split ("closing " ++ PyStr.str r))
      with (PyStr.split ("closing" ++ " " ++ PyStr.str r)%string).
    rewrite (split_in_progress "closing" (PyStr.str r)); auto;
      [|discriminate].
    change (String.eqb "closing" "open" || String.eqb "closing" "closed")
      with false. cbv iota.
    unfold bind at 1.
    rewrite (resume_closing E _ r) by (simpl; exact Hl).
    unfold bind, ret.
    destruct (close E (Some r) true _); reflexivity.
Qed.

Lemma constructor_resumes_journal_witness :
  arg_resume (ten_seconds true) = true /\
  exists self,
    __init__ square_wave (ten_seconds true) (Some "opening 2")
    = Returns tt self /\
    trace self =
      [GpioSetup CH1 OUT; GpioSetup CH2 OUT; GpioSetup PULSE IN;
       GpioOutput CH1 1; GpioOutput CH2 1; GpioOutput CH1 0;
       Submit "opening 1"; Submit "opening 0";
       GpioOutput CH1 1; GpioOutput CH2 1; WriteJournal "open"].
Proof.
  split; [reflexivity|].
  pose proof (proj1 (constructor_resumes_journal square_wave
                       (ten_seconds true) 2 eq_refl)) as H.
  eexists. split.
  - etransitivity; [exact H|]. vm_compute. reflexivity.
  - reflexivity.
Defined.

(** ** X9: the journal and the status agree between operations *)

(** X9. If reading the journal would give exactly the status in memory,
    then the same holds again after any call of [open], [close] or [resume]
    has ended: a process that is stopped between two operations and
    restarted finds in the journal the status it had. *)
Theorem journal_agrees_between_operations (E : environment) (self : pimc) :
  load_journal self = Returns (status self) self ->
  (forall pulses resuming self',
     final (open E pulses resuming self) = Some self' ->
     load_journal self' = Returns (status self') self') /\
  (forall pulses resuming self',
     final (close E pulses resuming self) = Some self' ->
     load_journal self' = Returns (status self') self') /\
  (forall self',
     final (resume E self) = Some self' ->
     load_journal self' = Returns (status self') self').
Proof.
  intros HJ. repeat split.
  - intros pulses resuming s' Hf.
    destruct (open_ends E pulses resuming self) as (s1 & Hf1 & Hcase);
      assert (s' = s1) by congruence; subst s';
      destruct Hcase as [-> | Ht]; auto.
    eapply (travelled_reloads self CH1 CH1 resuming). left. exact Ht.
  - intros pulses resuming s' Hf.
    destruct (close_ends E pulses resuming self) as (s1 & Hf1 & Hcase);
      assert (s' = s1) by congruence; subst s';
      destruct Hcase as [-> | Ht]; auto.
    eapply (travelled_reloads self CH2 CH2 resuming). right. exact Ht.
  - intros s' Hf.
    destruct (resume_ends E self) as (s1 & Hf1 & Hcase);
      assert (s' = s1) by congruence; subst s';
      destruct Hcase as [-> | (k & Ht)]; auto.
    apply (travelled_reloads self CH1 CH2 true k s1 Ht).
Qed.

Lemma journal_agrees_between_operations_witness :
  load_journal (door false 3 ("closed" ++ newline)%string)
  = Returns (status (door false 3 ("closed" ++ newline)%string))
      (door false 3 ("closed" ++ newline)%string) /\
  exists self',
    open square_wave None false (door false 3 ("closed" ++ newline)%string)
    = Returns None self' /\
    journal_file self' = Some "open" /\
    load_journal self' = Returns (Some "open") self'.
Proof.
  split; [reflexivity|].
  assert (Ho : exists s',
             open square_wave None false
               (door false 3 ("closed" ++ newline)%string)
             = Returns None s' /\ journal_file s' = Some "open" /\
             status s' = Some "open").
  { eexists. split; [vm_compute; reflexivity|]. split; reflexivity. }
  destruct Ho as (s' & Ho & Hj & Hst).
  exists s'. split; [exact Ho|]. split; [exact Hj|].
  rewrite <- Hst.
  apply (proj1 (journal_agrees_between_operations square_wave
                  (door false 3 ("closed" ++ newline)%string) eq_refl)
           None false s').
  rewrite Ho. reflexivity.
Defined.

(** ** X10: a simulated controller never drives a lead *)

Lemma travel_events_fake self lead word resuming k m terminal pin :
  faking_it self = true ->
  ~ In (GpioOutput pin 0)
       (travel_events self lead word resuming k m terminal).
Proof.
  intros Hfake Hin. unfold travel_events, setup_events, stop_events, countdown in Hin.
  rewrite Hfake in Hin.
  repeat (apply in_app_or in Hin as [Hin | Hin]).
  - destruct (gpio_initialized self); simpl in Hin;
      repeat (destruct Hin as [Hin | Hin]; [discriminate Hin|]); exact Hin.
  - simpl in Hin. repeat (destruct Hin as [Hin | Hin]; [discriminate Hin|]).
    exact Hin.
  - exact Hin.
  - destruct resuming; simpl in Hin;
      repeat (destruct Hin as [Hin | Hin]; [discriminate Hin|]); exact Hin.
  - apply in_map_iff in Hin as (j & Hj & _). discriminate Hj.
  - simpl in Hin. repeat (destruct Hin as [Hin | Hin]; [discriminate Hin|]).
    exact Hin.
  - simpl in Hin. repeat (destruct Hin as [Hin | Hin]; [discriminate Hin|]).
    exact Hin.
Qed.

(** X10. With [fake_it] set, no call of [forward], [reverse], [open],
    [close] or [resume] ever writes a low level to a lead: every low write
    found in the trace afterwards was there before.  (The calls still
    configure the pins and write both leads high.) *)
Theorem fake_never_drives_a_lead (E : environment) (self : pimc) (pin : Z) :
  faking_it self = true ->
  (forall self', final (forward self) = Some self' ->
     In (GpioOutput pin 0) (trace self') -> In (GpioOutput pin 0) (trace self)) /\
  (forall self', final (reverse self) = Some self' ->
     In (GpioOutput pin 0) (trace self') -> In (GpioOutput pin 0) (trace self)) /\
  (forall pulses resuming self',
     final (open E pulses resuming self) = Some self' ->
     In (GpioOutput pin 0) (trace self') -> In (GpioOutput pin 0) (trace self)) /\
  (forall pulses resuming self',
     final (close E pulses resuming self) = Some self' ->
     In (GpioOutput pin 0) (trace self') -> In (GpioOutput pin 0) (trace self)) /\
  (forall self', final (resume E self) = Some self' ->
     In (GpioOutput pin 0) (trace self') -> In (GpioOutput pin 0) (trace self)).
Proof.
  intros Hfake.
  assert (Hdrive : forall lead,
            In (GpioOutput pin 0)
               (trace self ++ setup_events self ++ stop_events
                ++ (if faking_it self then [] else [GpioOutput lead 0])) ->
            In (GpioOutput pin 0) (trace self)).
  { intros lead Hin. rewrite Hfake in Hin. unfold setup_events, stop_events in Hin.
    repeat (apply in_app_or in Hin as [Hin | Hin]); auto.
    - destruct (gpio_initialized self); simpl in Hin;
        repeat (destruct Hin as [Hin | Hin]; [discriminate Hin|]); contradiction.
    - simpl in Hin. repeat (destruct Hin as [Hin | Hin]; [discriminate Hin|]).
      contradiction.
    - contradiction. }
  assert (Htr : forall lead word done failed resuming k s',
            travelled self lead word done failed resuming k s' ->
            In (GpioOutput pin 0) (trace s') ->
            In (GpioOutput pin 0) (trace self)).
  { intros lead word done failed resuming k s' (m & _ & _ & _ & _ & _ & Ht & _).
    cbv zeta in Ht. rewrite Ht. intros Hin.
    apply in_app_or in Hin as [Hin | Hin]; auto.
    exfalso. eapply travel_events_fake; eauto. }
  repeat split.
  - intros s'. destruct (motor_busy self) eqn:Hb.
    + rewrite (forward_busy self Hb). now intros [= <-].
    + destruct (forward_idle self Hb) as (s1 & Hf & _ & _ & _ & _ & _ & Ht & _).
      rewrite Hf. intros [= <-]. rewrite Ht. apply Hdrive.
  - intros s'. destruct (motor_busy self) eqn:Hb.
    + rewrite (reverse_busy self Hb). now intros [= <-].
    + destruct (reverse_idle self Hb) as (s1 & Hf & _ & _ & _ & _ & _ & Ht & _).
      rewrite Hf. intros [= <-]. rewrite Ht. apply Hdrive.
  - intros pulses resuming s' Hf.
    destruct (open_ends E pulses resuming self) as (s1 & Hf1 & Hcase);
      assert (s' = s1) by congruence; subst s';
      destruct Hcase as [-> | Ht]; eauto.
  - intros pulses resuming s' Hf.
    destruct (close_ends E pulses resuming self) as (s1 & Hf1 & Hcase);
      assert (s' = s1) by congruence; subst s';
      destruct Hcase as [-> | Ht]; eauto.
  - intros s' Hf.
    destruct (resume_ends E self) as (s1 & Hf1 & Hcase);
      assert (s' = s1) by congruence; subst s';
      destruct Hcase as [-> | (k & [Ht | Ht])]; eauto.
Qed.

Lemma fake_never_drives_a_lead_witness :
  faking_it (door true 3 "closed") = true /\
  exists self',
    open square_wave None false (door true 3 "closed") = Returns None self' /\
    status self' = Some "open" /\
    ~ In (GpioOutput CH1 0) (trace self').
Proof.
  split; [reflexivity|].
  assert (Ho : exists s',
             open square_wave None false (door true 3 "closed")
             = Returns None s' /\ status s' = Some "open").
  { eexists. split; [vm_compute; reflexivity|reflexivity]. }
  destruct Ho as (s' & Ho & Hst).
  exists s'. split; [exact Ho|]. split; [exact Hst|].
  intros Hin.
  destruct (fake_never_drives_a_lead square_wave (door true 3 "closed") CH1
              eq_refl) as (_ & _ & Hopen & _).
  apply (Hopen None false s') in Hin; [|rewrite Ho; reflexivity].
  exact Hin.
Defined.

(** ** X11: the pins are configured once *)

Lemma setup_count_app t1 t2 :
  setup_count (t1 ++ t2) = (setup_count t1 + setup_count t2)%nat.
Proof. unfold setup_count. now rewrite filter_app, length_app. Qed.

Lemma setup_count_countdown p k m : setup_count (countdown p k m) = 0%nat.
Proof.
  unfold countdown. generalize (seq 1 m). intros l.
  induction l; simpl; auto.
Qed.

Lemma setup_count_setup_events self :
  setup_count (setup_events self)
  = if gpio_initialized self then 0%nat else 3%nat.
Proof. unfold setup_events. destruct (gpio_initialized self); reflexivity. Qed.

Lemma setup_count_travel_events self lead word resuming k m terminal :
  setup_count (travel_events self lead word resuming k m terminal)
  = if gpio_initialized self then 0%nat else 3%nat.
Proof.
  unfold travel_events.
  rewrite !setup_count_app, setup_count_countdown, setup_count_setup_events.
  destruct (gpio_initialized self), (faking_it self), resuming; reflexivity.
Qed.

(** X11. The three pins are configured at most once in the life of an
    object: if the trace holds the three [GPIO.setup] calls exactly when
    [gpio_initialized] is set, this is still so after any call of
    [gpio_setup], [stop_and_housekeeping], [forward], [reverse], [open],
    [close] or [resume], and a second [gpio_setup] returns [False] without
    calling [GPIO.setup]. *)
Theorem pins_are_configured_once (E : environment) (self : pimc) :
  pins_configured_once self ->
  (forall b self', gpio_setup self = Returns b self' ->
     pins_configured_once self' /\ gpio_initialized self' = true /\
     gpio_setup self' = Returns false self') /\
  (forall self', final (stop_and_housekeeping self) = Some self' ->
     pins_configured_once self') /\
  (forall self', final (forward self) = Some self' ->
     pins_configured_once self') /\
  (forall self', final (reverse self) = Some self' ->
     pins_configured_once self') /\
  (forall pulses resuming self',
     final (open E pulses resuming self) = Some self' ->
     pins_configured_once self') /\
  (forall pulses resuming self',
     final (close E pulses resuming self) = Some self' ->
     pins_configured_once self') /\
  (forall self', final (resume E self) = Some self' ->
     pins_configured_once self').
Proof.
  unfold pins_configured_once. intros HP.
  assert (Hdrive : forall s' extra,
            gpio_initialized s' = true ->
            trace s' = trace self ++ setup_events self ++ stop_events ++ extra ->
            setup_count extra = 0%nat ->
            setup_count (trace s') = 3%nat).
  { intros s' extra Hg Ht Hx.
    rewrite Ht, !setup_count_app, setup_count_setup_events, HP, Hx.
    destruct (gpio_initialized self); reflexivity. }
  assert (Htr : forall lead word done failed resuming k s',
            travelled self lead word done failed resuming k s' ->
            setup_count (trace s') = if gpio_initialized s' then 3%nat else 0%nat).
  { intros lead word done failed resuming k s' (m & _ & _ & _ & _ & Hg & Ht & _).
    cbv zeta in Ht.
    rewrite Hg, Ht, setup_count_app, setup_count_travel_events, HP.
    destruct (gpio_initialized self); reflexivity. }
  split.
  { intros b s' H. unfold gpio_setup in H.
    destruct (gpio_initialized self) eqn:Hg.
    - injection H as <- <-. rewrite Hg. repeat split; auto.
      unfold gpio_setup. now rewrite Hg.
    - unfold_monad. injection H as <- <-. simpl.
      rewrite !setup_count_app, HP. repeat split. }
  repeat split.
  - intros s'. destruct (stop_and_housekeeping_returns self)
      as (s1 & Hs & _ & _ & Hg & _ & _ & Ht & _).
    rewrite Hs. intros [= <-]. rewrite Hg.
    apply (Hdrive s1 []); auto.
  - intros s'. destruct (motor_busy self) eqn:Hb.
    + rewrite (forward_busy self Hb). now intros [= <-].
    + destruct (forward_idle self Hb) as (s1 & Hf & _ & _ & Hg & _ & _ & Ht & _).
      rewrite Hf. intros [= <-]. rewrite Hg.
      eapply Hdrive; eauto. now destruct (faking_it self).
  - intros s'. destruct (motor_busy self) eqn:Hb.
    + rewrite (reverse_busy self Hb). now intros [= <-].
    + destruct (reverse_idle self Hb) as (s1 & Hf & _ & _ & Hg & _ & _ & Ht & _).
      rewrite Hf. intros [= <-]. rewrite Hg.
      eapply Hdrive; eauto. now destruct (faking_it self).
  - intros pulses resuming s' Hf.
    destruct (open_ends E pulses resuming self) as (s1 & Hf1 & Hcase);
      assert (s' = s1) by congruence; subst s';
      destruct Hcase as [-> | Ht]; eauto.
  - intros pulses resuming s' Hf.
    destruct (close_ends E pulses resuming self) as (s1 & Hf1 & Hcase);
      assert (s' = s1) by congruence; subst s';
      destruct Hcase as [-> | Ht]; eauto.
  - intros s' Hf.
    destruct (resume_ends E self) as (s1 & Hf1 & Hcase);
      assert (s' = s1) by congruence; subst s';
      destruct Hcase as [-> | (k & [Ht | Ht])]; eauto.
Qed.

Lemma pins_are_configured_once_witness :
  pins_configured_once (door true 3 "closed") /\
  exists s1 s2,
    open square_wave None false (door true 3 "closed") = Returns None s1 /\
    setup_count (trace s1) = 3%nat /\
    close square_wave None false s1 = Returns None s2 /\
    setup_count (trace s2) = 3%nat.
Proof.
  assert (H0 : pins_configured_once (door true 3 "closed")) by reflexivity.
  split; [exact H0|].
  assert (Ho : exists s1,
             open square_wave None false (door true 3 "closed")
             = Returns None s1 /\ gpio_initialized s1 = true).
  { eexists. split; [vm_compute; reflexivity|reflexivity]. }
  destruct Ho as (s1 & Ho & Hg1).
  assert (H1 : pins_configured_once s1).
  { destruct (pins_are_configured_once square_wave _ H0)
      as (_ & _ & _ & _ & Hopen & _).
    apply (Hopen None false s1). rewrite Ho. reflexivity. }
  assert (Hc : exists s2,
             close square_wave None false s1 = Returns None s2 /\
             gpio_initialized s2 = true).
  { vm_compute in Ho. inversion Ho; subst s1.
    eexists. split; [vm_compute; reflexivity|reflexivity]. }
  destruct Hc as (s2 & Hc & Hg2).
  assert (H2 : pins_configured_once s2).
  { destruct (pins_are_configured_once square_wave _ H1)
      as (_ & _ & _ & _ & _ & Hclose & _).
    apply (Hclose None false s2). rewrite Hc. reflexivity. }
  exists s1, s2. unfold pins_configured_once in H1, H2.
  rewrite Hg1 in H1. rewrite Hg2 in H2. repeat split; auto.
Defined.

(** ** X12: a wait with nothing to wait for *)

Lemma wait_not_running E k p self :
  running k start self = false ->
  wait_pulses E k p self = Returns (k <=? 0) self /\
  fake_wait_pulses E k p self = Returns (k <=? 0) self.
Proof.
  intros Hrun. unfold wait_pulses, fake_wait_pulses, bind.
  cbn [wait_loop fake_wait_loop]. rewrite Hrun. split; reflexivity.
Qed.

(** X12. A wait for no pulse at all (a target of zero, as when resuming
    from [opening 0], or a negative target) returns [True] at once, for the
    physical and for the simulated wait alike: the input is not polled and
    nothing is changed.  A resuming [open] with such a target on an idle
    motor therefore stops the leads, drives lead 1, stops again and records
    [open], with no status update in between. *)
Theorem wait_with_nothing_to_wait_for (E : environment) (k : Z)
  (p : option string) (self : pimc) :
  k <= 0 ->
  wait_pulses E k p self = Returns true self /\
  fake_wait_pulses E k p self = Returns true self /\
  (motor_busy self = false ->
   exists self',
     open E (Some k) true self = Returns None self' /\
     status self' = Some "open" /\
     trace self' =
       trace self ++ setup_events self ++ stop_events
       ++ (if faking_it self then [] else [GpioOutput CH1 0])
       ++ stop_events ++ [WriteJournal "open"]).
Proof.
  intros Hk.
  assert (Hwait : forall s0,
            wait_pulses E k p s0 = Returns true s0 /\
            fake_wait_pulses E k p s0 = Returns true s0).
  { intros s0.
    assert (Hrun : running k start s0 = false).
    { unfold running. apply andb_false_iff. right. apply Z.ltb_ge. exact Hk. }
    destruct (wait_not_running E k p s0 Hrun) as [-> ->].
    apply Z.leb_le in Hk. rewrite Hk. split; reflexivity. }
  split; [apply Hwait|]. split; [apply Hwait|]. intros Hidle.
  destruct (open_runs E (Some k) true self Hidle (or_introl eq_refl))
    as (m & s' & Hr & Hst & _ & _ & _ & Ht & _).
  cbv zeta in *. exists s'. split; [exact Hr|].
  assert (Hm : (k <=? Z.of_nat m) = true) by (apply Z.leb_le; lia).
  rewrite Hm in Hst, Ht. split; [exact Hst|].
  assert (m = 0%nat) as ->.
  { destruct m as [|m']; [reflexivity|]. exfalso.
    rewrite open_unfold in Hr. cbn [negb andb] in Hr. unfold travel in Hr.
    destruct (forward_idle self Hidle) as (s1 & Hf & _ & _ & Hg1 & _ & _ & Ht1 & _).
    rewrite (bind_returns _ _ _ _ _ Hf) in Hr. cbn [negb] in Hr.
    unfold bind at 1 in Hr. unfold ret at 1 in Hr.
    assert (Hw : drive_wait E k (Some "opening") s1 = Returns true s1).
    { unfold drive_wait. destruct (faking_it s1).
      - assert (Hrun : running k start s1 = false).
        { unfold running. apply andb_false_iff. right. now apply Z.ltb_ge. }
        destruct (wait_not_running E k (Some "opening") s1 Hrun) as [_ ->].
        apply Z.leb_le in Hk. now rewrite Hk.
      - assert (Hrun : running k start s1 = false).
        { unfold running. apply andb_false_iff. right. now apply Z.ltb_ge. }
        destruct (wait_not_running E k (Some "opening") s1 Hrun) as [-> _].
        apply Z.leb_le in Hk. now rewrite Hk. }
    rewrite (bind_returns _ _ _ _ _ Hw) in Hr.
    destruct (stop_and_housekeeping_returns s1)
      as (s2 & Hs & _ & _ & _ & _ & _ & Ht2 & _).
    rewrite (bind_returns _ _ _ _ _ Hs) in Hr.
    destruct (update_status_sync "open" s2) as (s3 & Hu & _ & _ & _ & Ht3 & _).
    rewrite (bind_returns _ _ _ _ _ Hu) in Hr.
    unfold ret in Hr. injection Hr as <-.
    rewrite Ht3, Ht2, Ht1 in Ht. unfold travel_events, setup_events in Ht.
    rewrite Hg1, countdown_S in Ht.
    rewrite <- !app_assoc in Ht.
    repeat apply app_inv_head in Ht.
    apply (f_equal (@List.length event)) in Ht.
    rewrite !length_app in Ht. simpl in Ht. lia. }
  rewrite Ht. unfold travel_events. reflexivity.
Qed.

Lemma wait_with_nothing_to_wait_for_witness :
  wait_pulses stalled 0 (Some "opening") (door false 3 "opening 0")
  = Returns true (door false 3 "opening 0") /\
  fake_wait_pulses stalled 0 (Some "opening") (door false 3 "opening 0")
  = Returns true (door false 3 "opening 0") /\
  exists self',
    resume stalled (door false 3 "opening 0") = Returns true self' /\
    status self' = Some "open".
Proof.
  destruct (wait_with_nothing_to_wait_for stalled 0 (Some "opening")
              (door false 3 "opening 0") ltac:(lia)) as (Hw & Hf & Ho).
  split; [exact Hw|]. split; [exact Hf|].
  destruct (Ho eq_refl) as (s' & Hr & Hst & _).
  exists s'. split; [|exact Hst].
  change (resume stalled (door false 3 "opening 0"))
    with ((open stalled (Some 0) true ;; ret true) (door false 3 "opening 0")).
  now rewrite (bind_returns _ _ _ _ _ Hr).
Defined.

(** ** X13: targets no wait can reach *)

Lemma transitions_half l :
  (2 * transitions l <= List.length l)%nat /\
  (hd false l = true -> 2 * transitions l + 1 <= List.length l)%nat.
Proof.
  induction l as [|a l IH]; [split; [simpl; lia|discriminate]|].
  destruct IH as [IH1 IH2].
  destruct l as [|b l'].
  - simpl. split; lia.
  - change (transitions (a :: b :: l'))
      with ((if negb a && b then 1 else 0) + transitions (b :: l'))%nat.
    cbn [List.length hd] in *.
    destruct a, b; cbn [negb andb]; try specialize (IH2 eq_refl);
      (split; [|intros H; try discriminate H]); lia.
Qed.

Lemma elapsed_at_least period E n :
  period * Z.of_nat n <= elapsed period E n.
Proof. induction n as [|n IH]; simpl elapsed; lia. Qed.

Lemma sampled_length E n : List.length (sampled E n) = n.
Proof. unfold sampled. now rewrite length_map, length_seq. Qed.

(** X13. The polling cadence bounds what a wait can count.  The physical
    wait polls every 50 ms at best and needs two samples per pulse, so a
    target above ten pulses per second of [maxtime] always ends in
    [False]; the simulated wait counts one pulse per second, so a target
    above [maxtime] always ends in [False].  With the 30 seconds the
    constructor stores these limits are 300 and 30 pulses. *)
Theorem targets_beyond_the_cadence_fail (E : environment) (k : Z)
  (p : option string) (self : pimc) :
  0 <= maxtime self ->
  (10 * maxtime self < k ->
   exists self', wait_pulses E k p self = Returns false self') /\
  (maxtime self < k ->
   exists self', fake_wait_pulses E k p self = Returns false self').
Proof.
  intros Hmax. split; intros Hk.
  - destruct (wait_pulses_runs E k p self) as (n & v & s' & Hr & _ & HG & _).
    exists s'. rewrite Hr. f_equal. apply Z.leb_gt.
    assert (Hn : Z.of_nat n <= 20 * maxtime self).
    { destruct n as [|n']; [lia|].
      destruct (HG n') as [Hel _]; [lia|].
      pose proof (elapsed_at_least 50 E n'). lia. }
    pose proof (proj1 (transitions_half (sampled E n))) as Hh.
    rewrite sampled_length in Hh. unfold polled. lia.
  - destruct (fake_wait_pulses_runs E k p self) as (n & v & s' & Hr & _ & HG & _).
    exists s'. rewrite Hr. f_equal. apply Z.leb_gt.
    destruct n as [|n']; [lia|].
    destruct (HG n') as [Hel _]; [lia|].
    pose proof (elapsed_at_least 1000 E n'). lia.
Qed.

Lemma targets_beyond_the_cadence_fail_witness :
  0 <= maxtime (door false 301 "closed") /\
  10 * maxtime (door false 301 "closed") < 301 /\
  maxtime (door true 31 "closed") < 31 /\
  (exists self',
     wait_pulses square_wave 301 (Some "opening") (door false 301 "closed")
     = Returns false self') /\
  (exists self',
     fake_wait_pulses square_wave 31 (Some "opening") (door true 31 "closed")
     = Returns false self').
Proof.
  split; [simpl; lia|]. split; [simpl; lia|]. split; [simpl; lia|]. split.
  - apply (proj1 (targets_beyond_the_cadence_fail square_wave 301
                    (Some "opening") (door false 301 "closed")
                    ltac:(simpl; lia))).
    simpl. lia.
  - apply (proj2 (targets_beyond_the_cadence_fail square_wave 31
                    (Some "opening") (door true 31 "closed")
                    ltac:(simpl; lia))).
    simpl. lia.
Defined.

(** ** X14: the controller's own statuses survive the journal *)




(** ** X15 and X16: from rest to rest *)

Lemma constructed_at_rest a file : at_rest (constructed a file).
Proof.
  destruct (constructed_idle a file) as (Hb & Hf & Hst & Hj & Hq).
  repeat split; auto.
  - rewrite load_journal_loaded. now rewrite Hj, Hst.
  - apply quiet_safe; auto.
  - left. apply quiet_levels, Hq.
Qed.

Lemma travelled_from_rest self lead lead' resuming k self' :
  lead = CH1 \/ lead = CH2 -> lead' = CH1 \/ lead' = CH2 ->
  at_rest self ->
  (travelled self lead "opening" "open" "failed opening" resuming k self' \/
   travelled self lead' "closing" "closed" "failed closing" resuming k self') ->
  at_rest self'.
Proof.
  intros Hlead Hlead' (_ & _ & _ & Hsafe & _) Ht.
  pose proof (travelled_reloads _ _ _ _ _ _ Ht) as Hre.
  destruct Ht as [Ht | Ht].
  - destruct (travelled_levels _ _ _ _ _ _ _ _ Hlead Hsafe Ht) as [Hs Hl].
    destruct Ht as (m & _ & _ & Hf & Hb & _).
    repeat split; auto.
  - destruct (travelled_levels _ _ _ _ _ _ _ _ Hlead' Hsafe Ht) as [Hs Hl].
    destruct Ht as (m & _ & _ & Hf & Hb & _).
    repeat split; auto.
Qed.

Lemma init_at_rest E a file :
  exists self, __init__ E a file = Returns tt self /\ at_rest self.
Proof.
  destruct (init_ends E a file) as (self & Hi & [-> | (_ & k & Ht)]).
  - exists (constructed a file). split; [exact Hi|apply constructed_at_rest].
  - exists self. split; [exact Hi|].
    apply (travelled_from_rest (constructed a file) CH1 CH2 true k self);
      auto using constructed_at_rest.
Qed.

Lemma open_from_rest E pulses resuming self :
  at_rest self ->
  exists r self',
    open E pulses resuming self = Returns r self' /\ at_rest self'.
Proof.
  intros Hrest. pose proof Hrest as (Hidle & _).
  destruct (open_idle E pulses resuming self Hidle) as [H | (s' & H & Ht)].
  - eauto.
  - exists None, s'. split; [exact H|].
    eapply (travelled_from_rest self CH1 CH1 resuming); eauto.
Qed.

Lemma close_from_rest E pulses resuming self :
  at_rest self ->
  exists r self',
    close E pulses resuming self = Returns r self' /\ at_rest self'.
Proof.
  intros Hrest. pose proof Hrest as (Hidle & _).
  destruct (close_idle E pulses resuming self Hidle) as [H | (s' & H & Ht)].
  - eauto.
  - exists None, s'. split; [exact H|].
    eapply (travelled_from_rest self CH2 CH2 resuming); eauto.
Qed.

(** X16. From an object at rest (motor idle, no journal future
    outstanding, journal agreeing with the status, leads never low together
    and both high if ever written), [open] and [close] always return, never
    raise, and leave the object at rest again; so does [resume] whenever
    there is a status with at least one word.  The abort on a busy motor is
    thus never taken when operations are called one after the other. *)
Theorem rest_is_kept (E : environment) (self : pimc) :
  at_rest self ->
  (forall pulses resuming,
     exists r self',
       open E pulses resuming self = Returns r self' /\ at_rest self') /\
  (forall pulses resuming,
     exists r self',
       close E pulses resuming self = Returns r self' /\ at_rest self') /\
  (forall s, status self = Some s -> PyStr.split s <> [] ->
     exists r self', resume E self = Returns r self' /\ at_rest self').
Proof.
  intros Hrest. split; [|split].
  - intros pulses resuming. apply open_from_rest, Hrest.
  - intros pulses resuming. apply close_from_rest, Hrest.
  - intros s Hst Hsp. pose proof Hrest as (Hidle & _).
    destruct (resume_idle E self s Hidle Hst Hsp) as [H | (k & s' & H & Ht)].
    + eauto.
    + exists true, s'. split; [exact H|].
      apply (travelled_from_rest self CH1 CH2 true k s'); auto.
Qed.

Lemma rest_is_kept_witness :
  at_rest (door false 2 "closed") /\
  exists s1 s2,
    open square_wave None false (door false 2 "closed") = Returns None s1 /\
    at_rest s1 /\
    close stalled None false s1 = Returns None s2 /\
    status s2 = Some "failed closing" /\ at_rest s2.
Proof.
  assert (H0 : at_rest (door false 2 "closed")) by apply constructed_at_rest.
  split; [exact H0|].
  destruct (proj1 (rest_is_kept square_wave _ H0) None false)
    as (r1 & s1 & Ho & H1).
  assert (Hr1 : r1 = None /\ status s1 = Some "open").
  { vm_compute in Ho. inversion Ho. split; reflexivity. }
  destruct Hr1 as [-> Hst1].
  destruct (proj1 (proj2 (rest_is_kept stalled _ H1)) None false)
    as (r2 & s2 & Hc & H2).
  assert (Hr2 : r2 = None /\ status s2 = Some "failed closing").
  { vm_compute in Ho. inversion Ho; subst s1.
    vm_compute in Hc. inversion Hc. split; reflexivity. }
  destruct Hr2 as [-> Hst2].
  exists s1, s2. repeat split; auto; apply H1 || apply H2.
Defined.

(** X15. A run of the command line, for any of its three actions, any
    arguments, any feedback and a journal file that is missing or that
    [read()] delivers as text (whatever the text), returns without raising
    and leaves the object at rest: motor idle, nothing outstanding, the
    journal file agreeing with the status, the leads never low together and
    both high if they were written at all.  The [status] action prints the
    status in memory and, without [--resume], writes neither to the leads
    nor to the journal.  (A journal that cannot be opened or decoded is
    outside the embedding: there the constructor's [open()] or [read()]
    raises.) *)
Theorem command_line_ends_at_rest (E : environment) (act : action)
  (a : arguments) (file : option string) :
  exists r self,
    main E act a file = Returns r self /\
    at_rest self /\
    (act = ActStatus ->
     r = Some (status self) /\
     (arg_resume a = false ->
      self = constructed a file /\ journal_file self = file /\
      quiet (trace self) = true)) /\
    (act <> ActStatus -> r = None).
Proof.
  unfold main.
  destruct (init_ends E a file) as (s0 & Hi & Hcase).
  assert (H0 : at_rest s0).
  { destruct Hcase as [-> | (_ & k & Ht)]; [apply constructed_at_rest|].
    apply (travelled_from_rest (constructed a file) CH1 CH2 true k s0);
      auto using constructed_at_rest. }
  rewrite Hi. destruct act.
  - destruct (open_from_rest E None false s0 H0) as (r & s1 & Ho & H1).
    exists None, s1. rewrite (bind_returns _ _ _ _ _ Ho).
    split; [reflexivity|]. split; [exact H1|].
    split; [intros Hact; discriminate Hact|reflexivity].
  - destruct (close_from_rest E None false s0 H0) as (r & s1 & Ho & H1).
    exists None, s1. rewrite (bind_returns _ _ _ _ _ Ho).
    split; [reflexivity|]. split; [exact H1|].
    split; [intros Hact; discriminate Hact|reflexivity].
  - exists (Some (status s0)), s0. split; [reflexivity|]. split; [exact H0|].
    split; [|congruence]. intros _. split; [reflexivity|]. intros Hno.
    destruct Hcase as [-> | (Hres & _)]; [|congruence].
    destruct (constructed_idle a file) as (_ & _ & _ & Hj & Hq). auto.
Qed.

Lemma command_line_ends_at_rest_witness :
  arg_resume (defaults false 11) = false /\
  main stalled ActStatus (defaults false 11) (Some "open")
  = Returns (Some (Some "open")) (constructed (defaults false 11) (Some "open")) /\
  exists self,
    main square_wave ActOpen (defaults false 2) (Some "closed")
    = Returns None self /\
    status self = Some "open" /\ at_rest self.
Proof.
  split; [reflexivity|]. split.
  - destruct (command_line_ends_at_rest stalled ActStatus (defaults false 11)
                (Some "open")) as (r & self & Hm & _ & Hst & _).
    destruct (Hst eq_refl) as (-> & Hno).
    destruct (Hno eq_refl) as (-> & _). exact Hm.
  - destruct (command_line_ends_at_rest square_wave ActOpen (defaults false 2)
                (Some "closed")) as (r & self & Hm & Hrest & _ & Hr).
    rewrite (Hr ltac:(discriminate)) in Hm.
    exists self. split; [exact Hm|]. split; [|exact Hrest].
    vm_compute in Hm. inversion Hm. reflexivity.
Defined.
